(** * Froth-flotation control: vision metrics and the pump/motor controller

    A shallow embedding of [src/control/hardware_controller.py] and of the
    metric part of [src/vision/vision_processor.py].

    Python floats are idealised as real numbers ([R]); a method is a
    function from the object's state to an outcome and the state it leaves
    behind, so that the effect of a call that raises stays visible. *)

From Stdlib Require Import Reals Lra ZArith.
From stdpp Require Import gmap strings list.

Local Open Scope R_scope.

(** ** Python values and control *)

Inductive exn : Set :=
| ValueError
| KeyError
| IndexError
| AttributeError
| RuntimeError.

Inductive outcome (A : Type) : Type :=
| Return (a : A)
| Raise (e : exn).
Arguments Return {A} a.
Arguments Raise {A} e.

(** A method body: it reads and mutates [self : S] and either returns or
    raises; the state is kept in both cases. *)
Definition M (S A : Type) : Type := S -> outcome A * S.

Definition ret {S A} (a : A) : M S A := fun s => (Return a, s).
Definition raise {S A} (e : exn) : M S A := fun s => (Raise e, s).
Definition bind {S A B} (c : M S A) (k : A -> M S B) : M S B :=
  fun s => match c s with
           | (Return a, s') => k a s'
           | (Raise e, s') => (Raise e, s')
           end.
Definition get {S} : M S S := fun s => (Return s, s).
Definition modify {S} (f : S -> S) : M S unit := fun s => (Return tt, f s).

(** [try: c except Exception: h] *)
Definition try_except {S A} (c : M S A) (h : exn -> M S A) : M S A :=
  fun s => match c s with
           | (Return a, s') => (Return a, s')
           | (Raise e, s') => h e s'
           end.

Declare Scope py_scope.
Delimit Scope py_scope with py.
Notation "x <- c ;; k" := (bind c (fun x => k))
  (at level 100, c at next level, right associativity) : py_scope.
Notation "c ;;; k" := (bind c (fun _ => k))
  (at level 100, right associativity) : py_scope.

(** Comparisons of floats, as booleans. *)
Global Instance Rlt_decision : RelDecision Rlt := Rlt_dec.
Global Instance Rle_decision : RelDecision Rle := Rle_dec.
Global Instance Req_decision : EqDecision R := Req_dec_T.

Definition Rltb (x y : R) : bool := bool_decide (x < y).
Definition Rleb (x y : R) : bool := bool_decide (x <= y).

(** Python's [min(a, b)] keeps [a] unless [b < a]; [max(a, b)] keeps [a]
    unless [b > a]. *)
Definition py_min (a b : R) : R := if Rltb b a then b else a.
Definition py_max (a b : R) : R := if Rltb a b then b else a.

(** ** The hardware controller *)

Module Controller.

Definition PIN_PERISTALTIC : Z := 12.
Definition PIN_AGITATOR : Z := 13.
Definition PIN_AIR_PUMP : Z := 14.
Definition PIN_FEED_PUMP : Z := 15.
Definition PIN_ESTOP : Z := 22.

(** The [lgpio] library as the controller sees it: whether the import
    succeeded, and which calls raise. *)
Record lgpio : Type := {
  GPIO_AVAILABLE : bool;
  gpiochip_open : option Z;
  gpio_claim_input_ok : bool;
  tx_pwm_ok : Z -> R -> bool
}.

Record HardwareController : Type := {
  pi_kp : R;
  pi_ki : R;
  pi_setpoint : R;
  max_pump_duty : R;
  estop_enabled : bool;
  pi_integral : R;
  pi_last_error : R;
  pump_mode : string;
  pump_duty : R;
  motor_states : gmap string R;
  chip : option Z;
  is_initialized : bool;
  estop_triggered : bool;
  (** device side: the PWM writes [lgpio.tx_pwm] accepted, newest first *)
  pwm_writes : list (Z * R)
}.

Definition set_pi_kp v (s : HardwareController) :=
  {| pi_kp := v; pi_ki := pi_ki s; pi_setpoint := pi_setpoint s;
     max_pump_duty := max_pump_duty s; estop_enabled := estop_enabled s;
     pi_integral := pi_integral s; pi_last_error := pi_last_error s;
     pump_mode := pump_mode s; pump_duty := pump_duty s;
     motor_states := motor_states s; chip := chip s;
     is_initialized := is_initialized s; estop_triggered := estop_triggered s;
     pwm_writes := pwm_writes s |}.
Definition set_pi_ki v (s : HardwareController) :=
  {| pi_kp := pi_kp s; pi_ki := v; pi_setpoint := pi_setpoint s;
     max_pump_duty := max_pump_duty s; estop_enabled := estop_enabled s;
     pi_integral := pi_integral s; pi_last_error := pi_last_error s;
     pump_mode := pump_mode s; pump_duty := pump_duty s;
     motor_states := motor_states s; chip := chip s;
     is_initialized := is_initialized s; estop_triggered := estop_triggered s;
     pwm_writes := pwm_writes s |}.
Definition set_pi_setpoint v (s : HardwareController) :=
  {| pi_kp := pi_kp s; pi_ki := pi_ki s; pi_setpoint := v;
     max_pump_duty := max_pump_duty s; estop_enabled := estop_enabled s;
     pi_integral := pi_integral s; pi_last_error := pi_last_error s;
     pump_mode := pump_mode s; pump_duty := pump_duty s;
     motor_states := motor_states s; chip := chip s;
     is_initialized := is_initialized s; estop_triggered := estop_triggered s;
     pwm_writes := pwm_writes s |}.
Definition set_pi_integral v (s : HardwareController) :=
  {| pi_kp := pi_kp s; pi_ki := pi_ki s; pi_setpoint := pi_setpoint s;
     max_pump_duty := max_pump_duty s; estop_enabled := estop_enabled s;
     pi_integral := v; pi_last_error := pi_last_error s;
     pump_mode := pump_mode s; pump_duty := pump_duty s;
     motor_states := motor_states s; chip := chip s;
     is_initialized := is_initialized s; estop_triggered := estop_triggered s;
     pwm_writes := pwm_writes s |}.
Definition set_pi_last_error v (s : HardwareController) :=
  {| pi_kp := pi_kp s; pi_ki := pi_ki s; pi_setpoint := pi_setpoint s;
     max_pump_duty := max_pump_duty s; estop_enabled := estop_enabled s;
     pi_integral := pi_integral s; pi_last_error := v;
     pump_mode := pump_mode s; pump_duty := pump_duty s;
     motor_states := motor_states s; chip := chip s;
     is_initialized := is_initialized s; estop_triggered := estop_triggered s;
     pwm_writes := pwm_writes s |}.
Definition set_pump_mode_field v (s : HardwareController) :=
  {| pi_kp := pi_kp s; pi_ki := pi_ki s; pi_setpoint := pi_setpoint s;
     max_pump_duty := max_pump_duty s; estop_enabled := estop_enabled s;
     pi_integral := pi_integral s; pi_last_error := pi_last_error s;
     pump_mode := v; pump_duty := pump_duty s;
     motor_states := motor_states s; chip := chip s;
     is_initialized := is_initialized s; estop_triggered := estop_triggered s;
     pwm_writes := pwm_writes s |}.
Definition set_pump_duty v (s : HardwareController) :=
  {| pi_kp := pi_kp s; pi_ki := pi_ki s; pi_setpoint := pi_setpoint s;
     max_pump_duty := max_pump_duty s; estop_enabled := estop_enabled s;
     pi_integral := pi_integral s; pi_last_error := pi_last_error s;
     pump_mode := pump_mode s; pump_duty := v;
     motor_states := motor_states s; chip := chip s;
     is_initialized := is_initialized s; estop_triggered := estop_triggered s;
     pwm_writes := pwm_writes s |}.
Definition set_motor_states v (s : HardwareController) :=
  {| pi_kp := pi_kp s; pi_ki := pi_ki s; pi_setpoint := pi_setpoint s;
     max_pump_duty := max_pump_duty s; estop_enabled := estop_enabled s;
     pi_integral := pi_integral s; pi_last_error := pi_last_error s;
     pump_mode := pump_mode s; pump_duty := pump_duty s;
     motor_states := v; chip := chip s;
     is_initialized := is_initialized s; estop_triggered := estop_triggered s;
     pwm_writes := pwm_writes s |}.
Definition set_chip v (s : HardwareController) :=
  {| pi_kp := pi_kp s; pi_ki := pi_ki s; pi_setpoint := pi_setpoint s;
     max_pump_duty := max_pump_duty s; estop_enabled := estop_enabled s;
     pi_integral := pi_integral s; pi_last_error := pi_last_error s;
     pump_mode := pump_mode s; pump_duty := pump_duty s;
     motor_states := motor_states s; chip := v;
     is_initialized := is_initialized s; estop_triggered := estop_triggered s;
     pwm_writes := pwm_writes s |}.
Definition set_is_initialized v (s : HardwareController) :=
  {| pi_kp := pi_kp s; pi_ki := pi_ki s; pi_setpoint := pi_setpoint s;
     max_pump_duty := max_pump_duty s; estop_enabled := estop_enabled s;
     pi_integral := pi_integral s; pi_last_error := pi_last_error s;
     pump_mode := pump_mode s; pump_duty := pump_duty s;
     motor_states := motor_states s; chip := chip s;
     is_initialized := v; estop_triggered := estop_triggered s;
     pwm_writes := pwm_writes s |}.
Definition set_estop_triggered v (s : HardwareController) :=
  {| pi_kp := pi_kp s; pi_ki := pi_ki s; pi_setpoint := pi_setpoint s;
     max_pump_duty := max_pump_duty s; estop_enabled := estop_enabled s;
     pi_integral := pi_integral s; pi_last_error := pi_last_error s;
     pump_mode := pump_mode s; pump_duty := pump_duty s;
     motor_states := motor_states s; chip := chip s;
     is_initialized := is_initialized s; estop_triggered := v;
     pwm_writes := pwm_writes s |}.
Definition set_pwm_writes v (s : HardwareController) :=
  {| pi_kp := pi_kp s; pi_ki := pi_ki s; pi_setpoint := pi_setpoint s;
     max_pump_duty := max_pump_duty s; estop_enabled := estop_enabled s;
     pi_integral := pi_integral s; pi_last_error := pi_last_error s;
     pump_mode := pump_mode s; pump_duty := pump_duty s;
     motor_states := motor_states s; chip := chip s;
     is_initialized := is_initialized s; estop_triggered := estop_triggered s;
     pwm_writes := v |}.
Definition push_pwm_write (w : Z * R) (s : HardwareController) :=
  set_pwm_writes (w :: pwm_writes s) s.

Section WithLgpio.

Variable hw : lgpio.

Local Open Scope py_scope.

(** [lgpio.tx_pwm(chip, pin, PWM_FREQUENCY, duty)]: raises or performs
    the write. *)
Definition tx_pwm (pin : Z) (duty : R) : M HardwareController unit :=
  if tx_pwm_ok hw pin duty then modify (push_pwm_write (pin, duty))
  else raise RuntimeError.

Definition _set_pwm (pin : Z) (duty_cycle : R) : M HardwareController bool :=
  let duty_cycle := py_max 0 (py_min 100 duty_cycle) in
  if negb (GPIO_AVAILABLE hw) then ret true
  else
    self <- get ;;
    if negb (is_initialized self) then ret false
    else try_except (tx_pwm pin duty_cycle ;;; ret true)
                    (fun _ => ret false).

(** [for x in xs: body(x)] *)
Fixpoint for_ {A B} (xs : list A) (body : A -> M HardwareController B)
  : M HardwareController unit :=
  match xs with
  | [] => ret tt
  | x :: xs' => body x ;;; for_ xs' body
  end.

Definition all_pwm_pins : list Z :=
  [PIN_PERISTALTIC; PIN_AGITATOR; PIN_AIR_PUMP; PIN_FEED_PUMP].

Definition _initialize_gpio : M HardwareController bool :=
  if negb (GPIO_AVAILABLE hw) then
    modify (set_is_initialized true) ;;; ret true
  else
    try_except
      (c <- match gpiochip_open hw with
            | Some c => ret c
            | None => raise RuntimeError
            end ;;
       modify (set_chip (Some c)) ;;;
       for_ all_pwm_pins (fun pin => tx_pwm pin 0) ;;;
       self <- get ;;
       (if estop_enabled self
        then if gpio_claim_input_ok hw then ret tt else raise RuntimeError
        else ret tt) ;;;
       modify (set_is_initialized true) ;;;
       ret true)
      (fun _ => modify (set_is_initialized false) ;;; ret false).

(** [HardwareController(pi_kp, pi_ki, pi_setpoint, max_pump_duty,
    estop_enabled)]: the object once the constructor has run. *)
Definition __init__ (kp ki setpoint max_duty : R) (estop : bool)
  : HardwareController :=
  snd (_initialize_gpio
         {| pi_kp := kp; pi_ki := ki; pi_setpoint := setpoint;
            max_pump_duty := max_duty; estop_enabled := estop;
            pi_integral := 0; pi_last_error := 0;
            pump_mode := "manual"; pump_duty := 0;
            motor_states :=
              <["agitator" := 0]> (<["air" := 0]> (<["feed" := 0]> ∅));
            chip := None; is_initialized := false;
            estop_triggered := false;
            pwm_writes := [] |}).

Definition _emergency_shutdown : M HardwareController unit :=
  for_ all_pwm_pins (fun pin => _set_pwm pin 0) ;;;
  modify (set_pump_duty 0) ;;;
  modify (fun s => set_motor_states ((fun _ => 0) <$> motor_states s) s) ;;;
  modify (set_pi_integral 0).

(** [gpio_read] is what [lgpio.gpio_read(chip, PIN_ESTOP)] does at this
    poll: the level of the pin, or an exception. *)
Definition check_estop (gpio_read : outcome Z) : M HardwareController bool :=
  self <- get ;;
  if negb (estop_enabled self) || negb (GPIO_AVAILABLE hw)
     || negb (is_initialized self)
  then ret false
  else
    try_except
      (estop_state <- (fun s => (gpio_read, s)) ;;
       modify (set_estop_triggered (Z.eqb estop_state 0)) ;;;
       self <- get ;;
       (if estop_triggered self then _emergency_shutdown else ret tt) ;;;
       self <- get ;;
       ret (estop_triggered self))
      (fun _ => ret false).

Definition set_pump_mode (mode : string) : M HardwareController unit :=
  if negb (String.eqb mode "auto" || String.eqb mode "manual")
  then raise ValueError
  else
    self <- get ;;
    let old_mode := pump_mode self in
    modify (set_pump_mode_field mode) ;;;
    if String.eqb mode "auto" && negb (String.eqb old_mode "auto")
    then modify (set_pi_integral 0) ;;; modify (set_pi_last_error 0)
    else ret tt.

Definition _pi_update (measured_value : R) : M HardwareController R :=
  self <- get ;;
  let error := pi_setpoint self - measured_value in
  modify (fun s => set_pi_integral (pi_integral s + error) s) ;;;
  modify (fun s =>
            set_pi_integral (py_max (-50) (py_min 50 (pi_integral s))) s) ;;;
  self <- get ;;
  let p_term := pi_kp self * error in
  let i_term := pi_ki self * pi_integral self in
  let output := p_term + i_term in
  let duty := py_max 0 (py_min (max_pump_duty self) output) in
  modify (set_pi_last_error error) ;;;
  ret duty.

Definition set_pump_speed (value : R) : M HardwareController unit :=
  self <- get ;;
  if estop_triggered self then ret tt
  else if String.eqb (pump_mode self) "manual" then
    if negb (Rleb 0 value && Rleb value 100) then raise ValueError
    else
      let duty := py_min value (max_pump_duty self) in
      modify (set_pump_duty duty) ;;;
      _set_pwm PIN_PERISTALTIC duty ;;;
      ret tt
  else
    duty <- _pi_update value ;;
    modify (set_pump_duty duty) ;;;
    _set_pwm PIN_PERISTALTIC duty ;;;
    ret tt.

Definition set_pi_parameters (kp ki setpoint : option R)
  : M HardwareController unit :=
  match kp with
  | Some kp => if Rltb kp 0 then raise ValueError else modify (set_pi_kp kp)
  | None => ret tt
  end ;;;
  match ki with
  | Some ki => if Rltb ki 0 then raise ValueError else modify (set_pi_ki ki)
  | None => ret tt
  end ;;;
  match setpoint with
  | Some setpoint =>
      if Rltb setpoint 0 then raise ValueError
      else modify (set_pi_setpoint setpoint) ;;; modify (set_pi_integral 0)
  | None => ret tt
  end.

Definition pin_map : gmap string Z :=
  <["agitator" := PIN_AGITATOR]>
    (<["air" := PIN_AIR_PUMP]> (<["feed" := PIN_FEED_PUMP]> ∅)).

Definition manual_motor_control (motor_id : string) (pwm_value : R)
  : M HardwareController unit :=
  self <- get ;;
  if estop_triggered self then ret tt
  else if negb (bool_decide (is_Some (motor_states self !! motor_id)))
  then raise ValueError
  else if negb (Rleb 0 pwm_value && Rleb pwm_value 100) then raise ValueError
  else
    match pin_map !! motor_id with
    | None => raise KeyError
    | Some pin =>
        modify (fun s =>
                  set_motor_states (<[motor_id := pwm_value]> (motor_states s)) s) ;;;
        _set_pwm pin pwm_value ;;;
        ret tt
    end.

Record pi_controller_status : Type := {
  st_kp : R; st_ki : R; st_setpoint : R; st_integral : R; st_last_error : R
}.

Record status : Type := {
  st_pump_mode : string;
  st_pump_duty : R;
  st_motors : gmap string R;
  st_pi_controller : pi_controller_status;
  st_estop_triggered : bool;
  st_initialized : bool
}.

Definition get_status : M HardwareController status :=
  self <- get ;;
  ret {| st_pump_mode := pump_mode self;
         st_pump_duty := pump_duty self;
         st_motors := motor_states self;
         st_pi_controller :=
           {| st_kp := pi_kp self; st_ki := pi_ki self;
              st_setpoint := pi_setpoint self;
              st_integral := pi_integral self;
              st_last_error := pi_last_error self |};
         st_estop_triggered := estop_triggered self;
         st_initialized := is_initialized self |}.

Definition stop_all : M HardwareController unit :=
  for_ all_pwm_pins (fun pin => _set_pwm pin 0) ;;;
  modify (set_pump_duty 0) ;;;
  modify (fun s => set_motor_states ((fun _ => 0) <$> motor_states s) s).

(** A client of the object: one call of a public method. *)
Inductive call : Type :=
| Call_check_estop (gpio_read : outcome Z)
| Call_set_pump_mode (mode : string)
| Call_set_pump_speed (value : R)
| Call_set_pi_parameters (kp ki setpoint : option R)
| Call_manual_motor_control (motor_id : string) (pwm_value : R)
| Call_get_status
| Call_stop_all.

(** The object after a call, whether the call returned or raised. *)
Definition after (c : call) (s : HardwareController) : HardwareController :=
  match c with
  | Call_check_estop r => snd (check_estop r s)
  | Call_set_pump_mode m => snd (set_pump_mode m s)
  | Call_set_pump_speed v => snd (set_pump_speed v s)
  | Call_set_pi_parameters kp ki sp => snd (set_pi_parameters kp ki sp s)
  | Call_manual_motor_control m v => snd (manual_motor_control m v s)
  | Call_get_status => snd (get_status s)
  | Call_stop_all => snd (stop_all s)
  end.

Definition after_all (cs : list call) (s : HardwareController)
  : HardwareController :=
  fold_left (fun s c => after c s) cs s.

End WithLgpio.

(** Two environments: a board whose [lgpio] calls all succeed, and a
    machine without [lgpio] (the simulation mode of the module). *)
Definition raspberry_pi : lgpio :=
  {| GPIO_AVAILABLE := true; gpiochip_open := Some 0%Z;
     gpio_claim_input_ok := true; tx_pwm_ok := fun _ _ => true |}.

Definition simulation : lgpio :=
  {| GPIO_AVAILABLE := false; gpiochip_open := None;
     gpio_claim_input_ok := false; tx_pwm_ok := fun _ _ => false |}.

(** [HardwareController()] with the default arguments. *)
Definition default_controller (hw : lgpio) : HardwareController :=
  __init__ hw 0.5 0.05 120 80 true.

(** Every reachable object keeps the three motor keys of the constructor. *)
Definition motor_ids : gset string := {["agitator"; "air"; "feed"]}.

Definition motors_wf (s : HardwareController) : Prop :=
  dom (motor_states s) = motor_ids.

Definition integral_bounded (s : HardwareController) : Prop :=
  -50 <= pi_integral s <= 50.

End Controller.

(** ** The vision processor: bubble metrics and froth stability *)

Module Vision.

(** [numpy] on lists of floats. *)
Definition np_sum (xs : list R) : R := fold_right Rplus 0 xs.

Definition np_mean (xs : list R) : R := np_sum xs / INR (length xs).

(** Population standard deviation, [sqrt(mean(abs(x - mean)**2))]. *)
Definition np_std (xs : list R) : R :=
  sqrt (np_mean (map (fun x => Rsqr (Rabs (x - np_mean xs))) xs)).

(** [np.clip(x, lo, hi)] is [minimum(hi, maximum(x, lo))]. *)
Definition np_clip (x lo hi : R) : R := Rmin hi (Rmax x lo).

(** An image: its shape and its flattened entries. *)
Record ndarray : Type := {
  nd_shape : list nat;
  nd_data : list Z
}.

Definition nd_size (a : ndarray) : nat := fold_right Nat.mul 1%nat (nd_shape a).

Definition count_nonzero (a : ndarray) : nat :=
  length (filter (fun x => negb (Z.eqb x 0)) (nd_data a)).

(** A contour as the detector uses it: [cv.contourArea(cnt)] and
    [cv.arcLength(cnt, True)]. *)
Record contour : Type := {
  contourArea : R;
  arcLength : R
}.

(** The dictionary [process_bubbles] returns. *)
Record bubble_data : Type := {
  bd_count : Z;
  bd_diameters : list R;
  bd_areas : list R;
  bd_avg_diameter : R;
  bd_mask : option ndarray
}.

(** The dictionary [analyze_froth] returns. *)
Record froth_metrics : Type := {
  bubble_count : Z;
  avg_bubble_size : R;
  size_std_dev : R;
  froth_coverage : R;
  froth_stability : R
}.

Record VisionProcessor : Type := {
  min_bubble_area : R;
  circularity_threshold : R;
  history_size : nat;
  bubble_count_history : list Z;
  avg_size_history : list R
}.

(** [deque(maxlen=n).append(x)]: the oldest entries leave on the left. *)
Definition deque_append {A} (maxlen : nat) (x : A) (d : list A) : list A :=
  let d' := d ++ [x] in
  drop (length d' - maxlen) d'.

Definition append_history (count : Z) (avg_size : R) (s : VisionProcessor)
  : VisionProcessor :=
  {| min_bubble_area := min_bubble_area s;
     circularity_threshold := circularity_threshold s;
     history_size := history_size s;
     bubble_count_history :=
       deque_append (history_size s) count (bubble_count_history s);
     avg_size_history :=
       deque_append (history_size s) avg_size (avg_size_history s) |}.

(** The constructor, for the attributes the metrics read; the camera and
    kernel attributes only feed the OpenCV calls. *)
Definition __init__ (min_area circularity : R) (size : nat) : VisionProcessor :=
  {| min_bubble_area := min_area;
     circularity_threshold := circularity;
     history_size := size;
     bubble_count_history := [];
     avg_size_history := [] |}.

(** [VisionProcessor()] with the default arguments. *)
Definition default_processor : VisionProcessor := __init__ 80 0.45 10.

(** The body of the loop of [_analyze_contours], with its two lists. *)
Fixpoint analyze_loop (self : VisionProcessor) (contours : list contour)
    (diameters areas : list R) : list R * list R :=
  match contours with
  | [] => (diameters, areas)
  | cnt :: rest =>
      let area := contourArea cnt in
      if Rltb area (min_bubble_area self)
      then analyze_loop self rest diameters areas
      else
        let peri := arcLength cnt in
        if Rleb peri 0 then analyze_loop self rest diameters areas
        else
          let circularity := 4 * PI * area / (peri * peri) in
          if Rltb circularity (circularity_threshold self)
          then analyze_loop self rest diameters areas
          else
            let diameter := 2 * sqrt (area / PI) in
            analyze_loop self rest (diameters ++ [diameter]) (areas ++ [area])
  end.

Definition is_nonempty {A} (xs : list A) : bool :=
  match xs with [] => false | _ => true end.

(** [_analyze_contours]; the result has no ['mask'] key yet. *)
Definition _analyze_contours (self : VisionProcessor) (contours : list contour)
  : bubble_data :=
  let '(diameters, areas) := analyze_loop self contours [] [] in
  {| bd_count := Z.of_nat (length diameters);
     bd_diameters := diameters;
     bd_areas := areas;
     bd_avg_diameter := if is_nonempty diameters then np_mean diameters else 0;
     bd_mask := None |}.

Definition empty_bubble_data : bubble_data :=
  {| bd_count := 0; bd_diameters := []; bd_areas := [];
     bd_avg_diameter := 0; bd_mask := None |}.

Section WithOpenCV.

(** The OpenCV part of [process_bubbles] (grayscale to [findContours]): it
    yields the contours and the mask, or raises. *)
Variable cv_segment : VisionProcessor -> ndarray -> outcome (list contour * ndarray).

Local Open Scope py_scope.

Definition process_bubbles (frame : option ndarray)
  : M VisionProcessor bubble_data :=
  match frame with
  | None => ret empty_bubble_data
  | Some frame =>
      if Nat.eqb (nd_size frame) 0 then ret empty_bubble_data
      else
        try_except
          (self <- get ;;
           cm <- (fun s => (cv_segment self frame, s)) ;;
           let bubbles := _analyze_contours self (fst cm) in
           ret {| bd_count := bd_count bubbles;
                  bd_diameters := bd_diameters bubbles;
                  bd_areas := bd_areas bubbles;
                  bd_avg_diameter := bd_avg_diameter bubbles;
                  bd_mask := Some (snd cm) |})
          (fun _ => ret empty_bubble_data)
  end.

End WithOpenCV.

(** The three terms of [_calculate_stability], in the order the method
    computes them. *)
Definition size_uniformity (avg_diameter size_std : R) : R :=
  if Rltb 0 avg_diameter then 1 / (1 + size_std / avg_diameter) else 0.

Definition count_consistency (history : list Z) : R :=
  if Nat.leb 3 (length history) then
    let count_std := np_std (map IZR history) in
    let count_mean := np_mean (map IZR history) in
    if Rltb 0 count_mean then 1 / (1 + count_std / count_mean) else 0
  else 0.5.

Definition density_score (count : Z) : R :=
  if Z.ltb count 50 then IZR count / 50
  else if Z.gtb count 200 then py_max 0.5 (1 - (IZR count - 200) / 200)
  else 1.

Definition _calculate_stability (self : VisionProcessor)
    (avg_diameter size_std : R) (count : Z) : R :=
  let size_uniformity := size_uniformity avg_diameter size_std in
  let count_consistency := count_consistency (bubble_count_history self) in
  let density_score := density_score count in
  let stability :=
    0.4 * size_uniformity + 0.4 * count_consistency + 0.2 * density_score in
  np_clip stability 0 1.

Definition zero_metrics : froth_metrics :=
  {| bubble_count := 0; avg_bubble_size := 0; size_std_dev := 0;
     froth_coverage := 0; froth_stability := 0 |}.

(** [xs[i]] *)
Definition index {S A} (xs : list A) (i : nat) : M S A :=
  match xs !! i with
  | Some x => ret x
  | None => raise IndexError
  end.

Local Open Scope py_scope.

Definition analyze_froth (frame : option ndarray) (data : bubble_data)
  : M VisionProcessor froth_metrics :=
  try_except
    (let count := bd_count data in
     let diameters := bd_diameters data in
     let areas := bd_areas data in
     let mask := bd_mask data in
     coverage <-
       match mask with
       | Some mask =>
           shape <- match frame with
                    | Some frame => ret (nd_shape frame)
                    | None => raise AttributeError
                    end ;;
           rows <- index shape 0 ;;
           cols <- index shape 1 ;;
           let total_pixels := (rows * cols)%nat in
           let bubble_pixels := count_nonzero mask in
           ret (if Nat.ltb 0 total_pixels
                then INR bubble_pixels / INR total_pixels else 0)
       | None => ret 0
       end ;;
     let avg_size := if is_nonempty areas then np_mean areas else 0 in
     let size_std := if is_nonempty diameters then np_std diameters else 0 in
     modify (append_history count avg_size) ;;;
     self <- get ;;
     let stability :=
       _calculate_stability self (bd_avg_diameter data) size_std count in
     ret {| bubble_count := count;
            avg_bubble_size := avg_size;
            size_std_dev := size_std;
            froth_coverage := coverage;
            froth_stability := stability |})
    (fun _ => ret zero_metrics).

(** The size-uniformity term as the specification words it: over the
    average bubble size (the mean area) and the spread of the diameters. *)
Definition size_uniformity_spec (data : bubble_data) : R :=
  let avg_bubble_size :=
    if is_nonempty (bd_areas data) then np_mean (bd_areas data) else 0 in
  let size_std_dev :=
    if is_nonempty (bd_diameters data) then np_std (bd_diameters data) else 0 in
  if Rltb 0 avg_bubble_size then 1 / (1 + size_std_dev / avg_bubble_size)
  else 0.

(** The size-uniformity term [analyze_froth] hands to the stability score. *)
Definition froth_size_uniformity (data : bubble_data) : R :=
  size_uniformity (bd_avg_diameter data)
    (if is_nonempty (bd_diameters data) then np_std (bd_diameters data) else 0).

(** Two circular bubbles, of radius 10 and 20 pixels. *)
Definition two_circles : list contour :=
  [ {| contourArea := 100 * PI; arcLength := 20 * PI |};
    {| contourArea := 400 * PI; arcLength := 40 * PI |} ].

(** A frame of zero size, and an OpenCV whose calls all raise. *)
Definition zero_size_frame : ndarray :=
  {| nd_shape := [0%nat; 640%nat; 3%nat]; nd_data := [] |}.

Definition cv_failing (_ : VisionProcessor) (_ : ndarray)
  : outcome (list contour * ndarray) := Raise RuntimeError.

End Vision.

(** ** The rest of the controller: teardown, and any run of its methods *)

Module Lifecycle.
Import Controller.

Section WithLgpio.

Variable hw : lgpio.

Local Open Scope py_scope.

(** [gpiochip_close] is what [lgpio.gpiochip_close(self.chip)] does at this
    call: it returns or raises. *)
Definition cleanup (gpiochip_close : outcome unit)
  : M HardwareController unit :=
  stop_all hw ;;;
  self <- get ;;
  (if GPIO_AVAILABLE hw then
     match chip self with
     | Some _ =>
         try_except (fun s => (gpiochip_close, s)) (fun _ => ret tt)
     | None => ret tt
     end
   else ret tt) ;;;
  modify (set_is_initialized false) ;;;
  modify (set_chip None).

Definition __exit__ (gpiochip_close : outcome unit)
  : M HardwareController unit :=
  cleanup gpiochip_close.

Definition __del__ (gpiochip_close : outcome unit)
  : M HardwareController unit :=
  self <- get ;;
  if is_initialized self then cleanup gpiochip_close else ret tt.

(** A call of any method a client has, teardown included. *)
Inductive method : Type :=
| Public (c : call)
| Cleanup (gpiochip_close : outcome unit).

Definition run1 (m : method) (s : HardwareController) : HardwareController :=
  match m with
  | Public c => after hw c s
  | Cleanup close => snd (cleanup close s)
  end.

Definition run (ms : list method) (s : HardwareController)
  : HardwareController :=
  fold_left (fun s m => run1 m s) ms s.

(** The body of the loop of [control_loop] in [api/main.py]: one tick, with
    the mode and the bubble count the shared state holds at that time. *)
Definition control_tick (system_pump_mode : string) (bubble_count : Z)
    (gpio_read : outcome Z) : M HardwareController unit :=
  try_except
    (check_estop hw gpio_read ;;;
     if String.eqb system_pump_mode "auto"
     then set_pump_speed hw (IZR bubble_count)
     else ret tt)
    (fun _ => ret tt).

End WithLgpio.

(** A write the PWM pins can take: one of the four pins, a duty in
    [0, 100]. *)
Definition write_ok (w : Z * R) : Prop :=
  fst w ∈ all_pwm_pins /\ 0 <= snd w <= 100.

(** The device is out of reach: [lgpio] is missing, or the GPIO is not (or
    no longer) initialised. *)
Definition quiet (hw : lgpio) (s : HardwareController) : Prop :=
  GPIO_AVAILABLE hw = false \/ is_initialized s = false.

(** What one [_set_pwm] does, as a function of the object: the flag it
    returns and the object it leaves. *)
Definition pwm_result (hw : lgpio) (pin : Z) (duty_cycle : R)
    (s : HardwareController) : bool * HardwareController :=
  let duty := py_max 0 (py_min 100 duty_cycle) in
  if negb (GPIO_AVAILABLE hw) then (true, s)
  else if negb (is_initialized s) then (false, s)
  else if tx_pwm_ok hw pin duty then (true, push_pwm_write (pin, duty) s)
  else (false, s).

(** The loop [for pin in pins: self._set_pwm(pin, duty_cycle)]. *)
Definition pwm_each (hw : lgpio) (pins : list Z) (duty_cycle : R)
    (s : HardwareController) : HardwareController :=
  fold_left (fun s pin => snd (pwm_result hw pin duty_cycle s)) pins s.

(** How the device side moves from [s] to [s']: writes are only added, each
    one a write the pins can take; and out of reach of the device nothing
    is written, the device stays out of reach and the E-Stop flag stays. *)
Definition evolves (hw : lgpio) (s s' : HardwareController) : Prop :=
  (exists new,
      pwm_writes s' = new ++ pwm_writes s
      /\ Forall write_ok new
      /\ (quiet hw s -> new = []))
  /\ (quiet hw s -> quiet hw s')
  /\ (quiet hw s -> estop_triggered s' = estop_triggered s).

(** One PI step on a measured value: the integral and the duty it gives. *)
Definition pi_step_integral (v : R) (s : HardwareController) : R :=
  py_max (-50) (py_min 50 (pi_integral s + (pi_setpoint s - v))).

Definition pi_step_duty (v : R) (s : HardwareController) : R :=
  py_max 0
    (py_min (max_pump_duty s)
       (pi_kp s * (pi_setpoint s - v) + pi_ki s * pi_step_integral v s)).

(** [check_estop] gets as far as reading the pin. *)
Definition estop_polled (hw : lgpio) (s : HardwareController) : bool :=
  estop_enabled s && GPIO_AVAILABLE hw && is_initialized s.

(** The GPIO set-up of the constructor goes through. *)
Definition init_ok (hw : lgpio) (estop : bool) : bool :=
  negb (GPIO_AVAILABLE hw)
  || (match gpiochip_open hw with Some _ => true | None => false end
      && forallb (fun pin => tx_pwm_ok hw pin 0) all_pwm_pins
      && (negb estop || gpio_claim_input_ok hw)).

Definition zero_writes : list (Z * R) :=
  [(PIN_FEED_PUMP, 0); (PIN_AIR_PUMP, 0); (PIN_AGITATOR, 0);
   (PIN_PERISTALTIC, 0)].

Definition duty_in_range (md : R) (s : HardwareController) : Prop :=
  max_pump_duty s = md /\ 0 <= pump_duty s <= md.

Definition motors_in_range (s : HardwareController) : Prop :=
  forall m v, motor_states s !! m = Some v -> 0 <= v <= 100.

(** A short session: AUTO, one measurement, one motor command, teardown. *)
Definition demo_run : list method :=
  [Public (Call_set_pump_mode "auto"); Public (Call_set_pump_speed 100);
   Public (Call_manual_motor_control "air" 75); Cleanup (Return tt)].

(** A board on which the chip opens but the first PWM write raises. *)
Definition faulty_board : lgpio :=
  {| GPIO_AVAILABLE := true; gpiochip_open := Some 0%Z;
     gpio_claim_input_ok := true; tx_pwm_ok := fun _ _ => false |}.

End Lifecycle.

(** ** The rest of the vision processor *)

Module Pipeline.
Import Vision.

(** The three tests of [_analyze_contours] on one contour. *)
Definition accepted (self : VisionProcessor) (cnt : contour) : bool :=
  negb (Rltb (contourArea cnt) (min_bubble_area self))
  && negb (Rleb (arcLength cnt) 0)
  && negb (Rltb (4 * PI * contourArea cnt / (arcLength cnt * arcLength cnt))
             (circularity_threshold self)).

Definition equivalent_diameter (area : R) : R := 2 * sqrt (area / PI).


Section WithOpenCV.

Variable cv_segment : VisionProcessor -> ndarray -> outcome (list contour * ndarray).

Local Open Scope py_scope.


(** Frame after frame: the processor after [analyze_froth] has run on each
    pair of a frame and its bubble data. *)
Definition analyze_all (inputs : list (option ndarray * bubble_data))
    (self : VisionProcessor) : VisionProcessor :=
  fold_left (fun s fd => snd (analyze_froth (fst fd) (snd fd) s)) inputs self.

End WithOpenCV.

(** An OpenCV that finds the two circles in every frame. *)
Definition cv_two_circles (_ : VisionProcessor) (frame : ndarray)
  : outcome (list contour * ndarray) :=
  Return (two_circles, {| nd_shape := take 2 (nd_shape frame); nd_data := [] |}).

(** A 2 by 3 colour frame, a mask of its size with two bubble pixels, and
    bubble data that carry that mask. *)
Definition small_frame : ndarray :=
  {| nd_shape := [2%nat; 3%nat; 3%nat]; nd_data := [] |}.

Definition small_mask : ndarray :=
  {| nd_shape := [2%nat; 3%nat]; nd_data := [255; 0; 255; 0; 0; 0]%Z |}.

Definition masked_data : bubble_data :=
  {| bd_count := 0; bd_diameters := []; bd_areas := [];
     bd_avg_diameter := 0; bd_mask := Some small_mask |}.

End Pipeline.

(** ** The camera side of the vision processor *)

Module Camera.

(** What one pass of the loop of [initialize_camera] meets. *)
Inductive attempt : Set :=
| ConstructorRaises    (* [cv.VideoCapture(camera_id)] raises *)
| NotOpened            (* [isOpened()] is [False] *)
| ConfigureRaises      (* opened, then [set] or the test [read] raises *)
| TestReadFails        (* the test [read] gives no frame *)
| Opens.               (* opened, and the test [read] gives a frame *)

(** A [cv.VideoCapture] object: whether it holds the device. *)
Record VideoCapture : Type := { isOpened : bool }.

(** The camera attributes of the processor, and next to them the calls
    made so far: captures constructed, and seconds spent in [time.sleep]. *)
Record camera : Type := {
  camera_retries : nat;
  cap : option VideoCapture;
  is_camera_open : bool;
  constructed : nat;
  slept : nat
}.

Definition set_cap v (s : camera) :=
  {| camera_retries := camera_retries s; cap := v;
     is_camera_open := is_camera_open s;
     constructed := constructed s; slept := slept s |}.
Definition set_is_camera_open v (s : camera) :=
  {| camera_retries := camera_retries s; cap := cap s;
     is_camera_open := v;
     constructed := constructed s; slept := slept s |}.
Definition count_construction (s : camera) :=
  {| camera_retries := camera_retries s; cap := cap s;
     is_camera_open := is_camera_open s;
     constructed := S (constructed s); slept := slept s |}.
Definition sleep (seconds : nat) (s : camera) :=
  {| camera_retries := camera_retries s; cap := cap s;
     is_camera_open := is_camera_open s;
     constructed := constructed s; slept := slept s + seconds |}.

Section WithDevice.

(** What the [k]-th capture constructed since start-up meets. *)
Variable device : nat -> attempt.

Local Open Scope py_scope.

(** [self.cap.release()] *)
Definition release_cap : M camera unit :=
  modify (fun s => set_cap (match cap s with
                            | Some _ => Some {| isOpened := false |}
                            | None => None
                            end) s).

(** One pass of the loop: [Some b] when the pass returns [b], [None] when
    the loop goes on. *)
Definition attempt_once : M camera (option bool) :=
  try_except
    (self <- get ;;
     let met := device (constructed self) in
     modify count_construction ;;;
     match met with
     | ConstructorRaises => raise RuntimeError
     | NotOpened =>
         modify (set_cap (Some {| isOpened := false |})) ;;;
         modify (sleep 2) ;;; ret None
     | ConfigureRaises =>
         modify (set_cap (Some {| isOpened := true |})) ;;;
         raise RuntimeError
     | TestReadFails =>
         modify (set_cap (Some {| isOpened := true |})) ;;;
         release_cap ;;;
         modify (sleep 2) ;;; ret None
     | Opens =>
         modify (set_cap (Some {| isOpened := true |})) ;;;
         modify (set_is_camera_open true) ;;;
         ret (Some true)
     end)
    (fun _ =>
       self <- get ;;
       match cap self with
       | Some _ => release_cap
       | None => ret tt
       end ;;;
       modify (sleep 2) ;;; ret None).

Fixpoint retry_loop (passes : nat) : M camera bool :=
  match passes with
  | O => ret false
  | S passes' =>
      r <- attempt_once ;;
      match r with
      | Some b => ret b
      | None => retry_loop passes'
      end
  end.

Definition initialize_camera : M camera bool :=
  self <- get ;;
  retry_loop (camera_retries self).

(** [read] is what [self.cap.read()] does at this call, when the call is
    reached. *)
Definition capture_frame (read : outcome (bool * option Vision.ndarray))
  : M camera (bool * option Vision.ndarray) :=
  self <- get ;;
  ready <- (if negb (is_camera_open self)
               || match cap self with None => true | Some _ => false end
            then initialize_camera
            else ret true) ;;
  if negb ready then ret (false, None)
  else
    try_except
      (rf <- (fun s => (read, s)) ;;
       match rf with
       | (true, Some frame) => ret (true, Some frame)
       | _ => modify (set_is_camera_open false) ;;; ret (false, None)
       end)
      (fun _ => modify (set_is_camera_open false) ;;; ret (false, None)).

Definition release : M camera unit :=
  self <- get ;;
  match cap self with
  | Some _ => release_cap ;;; modify (set_cap None)
  | None => ret tt
  end ;;;
  modify (set_is_camera_open false).

End WithDevice.

(** [VisionProcessor()]: five retries, no capture yet. *)
Definition fresh_camera : camera :=
  {| camera_retries := 5; cap := None; is_camera_open := false;
     constructed := 0; slept := 0 |}.

(** A camera that opens at the third construction. *)
Definition third_time_lucky (k : nat) : attempt :=
  match k with
  | 0%nat => NotOpened
  | 1%nat => TestReadFails
  | _ => Opens
  end.

Definition unplugged (_ : nat) : attempt := NotOpened.

Definition plugged (_ : nat) : attempt := Opens.

(** A capture that does not hold the device. *)
Definition closed : option VideoCapture := Some {| isOpened := false |}.

End Camera.

(** ** Facts about the Python primitives *)

Lemma py_min_Rmin a b : py_min a b = Rmin a b.
Proof.
  unfold py_min, Rltb, Rmin. case_bool_decide; destruct (Rle_dec a b); lra.
Qed.

Lemma py_max_Rmax a b : py_max a b = Rmax a b.
Proof.
  unfold py_max, Rltb, Rmax. case_bool_decide; destruct (Rle_dec a b); lra.
Qed.

Lemma py_clamp_bounds lo hi x :
  lo <= hi -> lo <= py_max lo (py_min hi x) <= hi.
Proof.
  intros Hle. unfold py_max, py_min, Rltb.
  repeat case_bool_decide; lra.
Qed.

Lemma Rleb_true x y : Rleb x y = true <-> x <= y.
Proof. unfold Rleb. apply bool_decide_eq_true. Qed.

Lemma Rltb_true x y : Rltb x y = true <-> x < y.
Proof. unfold Rltb. apply bool_decide_eq_true. Qed.

Lemma in_range_true lo hi x :
  Rleb lo x && Rleb x hi = true <-> lo <= x <= hi.
Proof. rewrite andb_true_iff, !Rleb_true. tauto. Qed.

Lemma in_range_false lo hi x :
  Rleb lo x && Rleb x hi = false <-> ~ (lo <= x <= hi).
Proof.
  rewrite <- in_range_true. destruct (Rleb lo x && Rleb x hi); split;
    congruence.
Qed.

Lemma Rltb_false x y : Rltb x y = false <-> ~ x < y.
Proof. unfold Rltb. apply bool_decide_eq_false. Qed.

Lemma Rleb_false x y : Rleb x y = false <-> ~ x <= y.
Proof. unfold Rleb. apply bool_decide_eq_false. Qed.

Lemma PI_gt_2 : 2 < PI.
Proof. pose proof PI2_1. lra. Qed.

(** ** Properties of the controller *)

Module ControllerFacts.
Import Controller.

Section Frames.

Variable hw : lgpio.

(** A PWM write never raises and touches nothing but the device. *)
Lemma _set_pwm_frame pin d s :
  exists b ws, _set_pwm hw pin d s = (Return b, set_pwm_writes ws s).
Proof.
  unfold _set_pwm. destruct (GPIO_AVAILABLE hw); cbn.
  - unfold bind, get. destruct (is_initialized s) eqn:E; cbn.
    + unfold try_except, bind, tx_pwm. destruct (tx_pwm_ok hw pin _); cbn.
      * eexists _, _. reflexivity.
      * exists false, (pwm_writes s). destruct s; reflexivity.
    + exists false, (pwm_writes s). destruct s; reflexivity.
  - exists true, (pwm_writes s). destruct s; reflexivity.
Qed.

Lemma for_set_pwm_frame pins d s :
  exists ws, for_ pins (fun pin => _set_pwm hw pin d) s
             = (Return tt, set_pwm_writes ws s).
Proof.
  revert s. induction pins as [|pin pins IH]; intros s; cbn.
  - exists (pwm_writes s). destruct s; reflexivity.
  - unfold bind. destruct (_set_pwm_frame pin d s) as (b & ws & ->).
    destruct (IH (set_pwm_writes ws s)) as (ws' & ->).
    exists ws'. reflexivity.
Qed.

Lemma _emergency_shutdown_eq s :
  exists ws,
    _emergency_shutdown hw s
    = (Return tt,
       set_pi_integral 0
         (set_motor_states ((fun _ => 0) <$> motor_states s)
            (set_pump_duty 0 (set_pwm_writes ws s)))).
Proof.
  unfold _emergency_shutdown, bind.
  destruct (for_set_pwm_frame all_pwm_pins 0 s) as (ws & ->).
  exists ws. reflexivity.
Qed.

Lemma stop_all_eq s :
  exists ws,
    stop_all hw s
    = (Return tt,
       set_motor_states ((fun _ => 0) <$> motor_states s)
         (set_pump_duty 0 (set_pwm_writes ws s))).
Proof.
  unfold stop_all, bind.
  destruct (for_set_pwm_frame all_pwm_pins 0 s) as (ws & ->).
  exists ws. reflexivity.
Qed.

(** The poll of the E-Stop input, case by case. *)
Lemma check_estop_eq r s :
  (exists est, check_estop hw r s = (Return false, set_estop_triggered est s))
  \/ (exists ws,
        check_estop hw r s
        = (Return true,
           set_pi_integral 0
             (set_motor_states ((fun _ => 0) <$> motor_states s)
                (set_pump_duty 0
                   (set_pwm_writes ws (set_estop_triggered true s)))))).
Proof.
  unfold check_estop, bind, get.
  destruct (negb (estop_enabled s) || negb (GPIO_AVAILABLE hw)
            || negb (is_initialized s)); cbn.
  - left. exists (estop_triggered s). destruct s; reflexivity.
  - unfold try_except, bind. destruct r as [lvl|e]; cbn.
    + destruct (Z.eqb lvl 0) eqn:E; cbn.
      * right.
        destruct (_emergency_shutdown_eq (set_estop_triggered true s))
          as (ws & ->).
        exists ws. reflexivity.
      * left. exists false. reflexivity.
    + left. exists (estop_triggered s). destruct s; reflexivity.
Qed.

Lemma tx_pwm_frame pin d s :
  exists o ws, tx_pwm hw pin d s = (o, set_pwm_writes ws s).
Proof.
  unfold tx_pwm. destruct (tx_pwm_ok hw pin d).
  - eexists _, _. reflexivity.
  - exists (Raise RuntimeError), (pwm_writes s). destruct s; reflexivity.
Qed.

Lemma for_tx_pwm_frame pins d s :
  exists o ws, for_ pins (fun pin => tx_pwm hw pin d) s
               = (o, set_pwm_writes ws s).
Proof.
  revert s. induction pins as [|pin pins IH]; intros s; cbn.
  - exists (Return tt), (pwm_writes s). destruct s; reflexivity.
  - unfold bind. destruct (tx_pwm_frame pin d s) as ([[]|e] & ws & ->).
    + destruct (IH (set_pwm_writes ws s)) as (o & ws' & ->).
      exists o, ws'. reflexivity.
    + eexists _, _. reflexivity.
Qed.

(** The constructor's GPIO set-up only decides [chip], [is_initialized]
    and the device writes. *)
Lemma _initialize_gpio_frame s :
  exists b c i ws,
    _initialize_gpio hw s
    = (Return b, set_is_initialized i (set_chip c (set_pwm_writes ws s))).
Proof.
  unfold _initialize_gpio.
  pose proof (for_tx_pwm_frame all_pwm_pins 0) as Hloop.
  set (loop := for_ all_pwm_pins (fun pin => tx_pwm hw pin 0)) in *.
  clearbody loop.
  destruct (GPIO_AVAILABLE hw); cbn.
  - unfold try_except, bind. destruct (gpiochip_open hw) as [c|]; cbn.
    + destruct (Hloop (set_chip (Some c) s)) as ([[]|e] & ws & ->); cbn.
      * destruct (estop_enabled s); [destruct (gpio_claim_input_ok hw)|];
          cbn; eexists _, _, _, _; reflexivity.
      * eexists _, _, _, _; reflexivity.
    + exists false, (chip s), false, (pwm_writes s). destruct s; reflexivity.
  - exists true, (chip s), true, (pwm_writes s). destruct s; reflexivity.
Qed.

Lemma set_pump_speed_estop v s :
  estop_triggered s = true -> set_pump_speed hw v s = (Return tt, s).
Proof. intros H. unfold set_pump_speed, bind, get. rewrite H. reflexivity. Qed.

Lemma set_pump_speed_manual_ok v s :
  estop_triggered s = false -> pump_mode s = "manual" -> 0 <= v <= 100 ->
  exists ws,
    set_pump_speed hw v s
    = (Return tt,
       set_pwm_writes ws (set_pump_duty (py_min v (max_pump_duty s)) s)).
Proof.
  intros He Hm Hv. unfold set_pump_speed, bind, get. rewrite He, Hm. cbn.
  apply in_range_true in Hv. rewrite Hv. cbn. unfold modify.
  match goal with |- context [_set_pwm hw ?p ?d ?s'] =>
    destruct (_set_pwm_frame p d s') as (b & ws & ->) end.
  exists ws. reflexivity.
Qed.

Lemma set_pump_speed_manual_bad v s :
  estop_triggered s = false -> pump_mode s = "manual" -> ~ (0 <= v <= 100) ->
  set_pump_speed hw v s = (Raise ValueError, s).
Proof.
  intros He Hm Hv. unfold set_pump_speed, bind, get. rewrite He, Hm. cbn.
  apply in_range_false in Hv. rewrite Hv. reflexivity.
Qed.

Lemma set_pump_speed_auto v s :
  estop_triggered s = false -> pump_mode s <> "manual" ->
  exists ws duty,
    set_pump_speed hw v s
    = (Return tt,
       set_pwm_writes ws
         (set_pump_duty duty
            (set_pi_last_error (pi_setpoint s - v)
               (set_pi_integral
                  (py_max (-50)
                     (py_min 50 (pi_integral s + (pi_setpoint s - v))))
                  s)))).
Proof.
  intros He Hm. unfold set_pump_speed, bind, get. rewrite He.
  apply String.eqb_neq in Hm. rewrite Hm.
  unfold _pi_update, bind, get, modify, ret. cbn.
  match goal with |- context [_set_pwm hw ?p ?d ?s'] =>
    destruct (_set_pwm_frame p d s') as (b & ws & ->) end.
  eexists ws, _. reflexivity.
Qed.

Lemma manual_motor_control_estop m v s :
  estop_triggered s = true -> manual_motor_control hw m v s = (Return tt, s).
Proof.
  intros H. unfold manual_motor_control, bind, get. rewrite H. reflexivity.
Qed.

(** The four ways a motor command can end. *)
Lemma manual_motor_control_cases m v s :
  manual_motor_control hw m v s = (Return tt, s)
  \/ (exists e, manual_motor_control hw m v s = (Raise e, s))
  \/ (exists ws,
        is_Some (motor_states s !! m) /\
        manual_motor_control hw m v s
        = (Return tt,
           set_pwm_writes ws (set_motor_states (<[m := v]> (motor_states s)) s))).
Proof.
  unfold manual_motor_control, bind, get.
  destruct (estop_triggered s); [left; reflexivity|].
  case_bool_decide as Hin; cbn; [|right; left; eexists; reflexivity].
  destruct (Rleb 0 v && Rleb v 100); cbn; [|right; left; eexists; reflexivity].
  destruct (pin_map !! m) as [pin|]; [|right; left; eexists; reflexivity].
  right; right. unfold modify.
  match goal with |- context [_set_pwm hw ?p ?d ?s'] =>
    destruct (_set_pwm_frame p d s') as (b & ws & ->) end.
  exists ws. split; [assumption | reflexivity].
Qed.

End Frames.

(** *** Mode switch and PI parameters, case by case *)

Lemma set_pump_mode_invalid mode s :
  mode <> "auto" -> mode <> "manual" ->
  set_pump_mode mode s = (Raise ValueError, s).
Proof.
  intros Ha Hm. unfold set_pump_mode.
  apply String.eqb_neq in Ha, Hm. rewrite Ha, Hm. reflexivity.
Qed.

Lemma set_pump_mode_enter_auto s :
  pump_mode s <> "auto" ->
  set_pump_mode "auto" s
  = (Return tt,
     set_pi_last_error 0 (set_pi_integral 0 (set_pump_mode_field "auto" s))).
Proof.
  intros Hm. unfold set_pump_mode, bind, get, modify. cbn.
  apply String.eqb_neq in Hm. rewrite Hm. reflexivity.
Qed.

Lemma set_pump_mode_stay_auto s :
  pump_mode s = "auto" -> set_pump_mode "auto" s = (Return tt, s).
Proof.
  intros Hm. unfold set_pump_mode, bind, get, modify. cbn.
  rewrite Hm. cbn. destruct s; cbn in *; subst; reflexivity.
Qed.

Lemma set_pump_mode_manual s :
  set_pump_mode "manual" s = (Return tt, set_pump_mode_field "manual" s).
Proof. reflexivity. Qed.

Lemma set_pump_mode_integral mode s :
  pi_integral (snd (set_pump_mode mode s)) = pi_integral s
  \/ pi_integral (snd (set_pump_mode mode s)) = 0.
Proof.
  unfold set_pump_mode, bind, get, modify.
  destruct (negb _); cbn; [left; reflexivity|].
  destruct (_ && _); cbn; [right|left]; reflexivity.
Qed.

Lemma set_pi_parameters_integral kp ki sp s :
  pi_integral (snd (set_pi_parameters kp ki sp s)) = pi_integral s
  \/ pi_integral (snd (set_pi_parameters kp ki sp s)) = 0.
Proof.
  unfold set_pi_parameters, bind, modify, raise, ret.
  destruct kp as [kp|]; [destruct (Rltb kp 0)|];
    (destruct ki as [ki|]; [destruct (Rltb ki 0)|]);
    (destruct sp as [sp|]; [destruct (Rltb sp 0)|]);
    cbn; auto.
Qed.

(** *** Invariants of the reachable objects *)

Section Invariants.

Variable hw : lgpio.

Lemma set_pump_speed_cases v s :
  set_pump_speed hw v s = (Return tt, s)
  \/ set_pump_speed hw v s = (Raise ValueError, s)
  \/ (exists ws,
        set_pump_speed hw v s
        = (Return tt,
           set_pwm_writes ws (set_pump_duty (py_min v (max_pump_duty s)) s)))
  \/ (exists ws duty,
        set_pump_speed hw v s
        = (Return tt,
           set_pwm_writes ws
             (set_pump_duty duty
                (set_pi_last_error (pi_setpoint s - v)
                   (set_pi_integral
                      (py_max (-50)
                         (py_min 50 (pi_integral s + (pi_setpoint s - v))))
                      s))))).
Proof.
  destruct (estop_triggered s) eqn:He.
  { left. apply set_pump_speed_estop, He. }
  destruct (decide (pump_mode s = "manual")) as [Hm|Hm].
  - destruct (decide (0 <= v <= 100)) as [Hv|Hv].
    + right; right; left. apply set_pump_speed_manual_ok; assumption.
    + right; left. apply set_pump_speed_manual_bad; assumption.
  - right; right; right. apply set_pump_speed_auto; assumption.
Qed.

Lemma integral_bounded_zero s : pi_integral s = 0 -> integral_bounded s.
Proof. unfold integral_bounded. intros ->. lra. Qed.

Lemma integral_bounded_same s s' :
  pi_integral s' = pi_integral s -> integral_bounded s -> integral_bounded s'.
Proof. unfold integral_bounded. intros ->. tauto. Qed.

Lemma integral_bounded_set_pump_speed v s :
  integral_bounded s -> integral_bounded (snd (set_pump_speed hw v s)).
Proof.
  intros Hb.
  destruct (set_pump_speed_cases v s)
    as [-> | [-> | [(ws & ->) | (ws & duty & ->)]]]; cbn; try exact Hb.
  unfold integral_bounded; cbn. apply py_clamp_bounds. lra.
Qed.

Lemma integral_bounded_set_pump_mode mode s :
  integral_bounded s -> integral_bounded (snd (set_pump_mode mode s)).
Proof.
  intros Hb. destruct (set_pump_mode_integral mode s) as [H|H].
  - eapply integral_bounded_same; eassumption.
  - apply integral_bounded_zero, H.
Qed.

Lemma integral_bounded_set_pi_parameters kp ki sp s :
  integral_bounded s -> integral_bounded (snd (set_pi_parameters kp ki sp s)).
Proof.
  intros Hb. destruct (set_pi_parameters_integral kp ki sp s) as [H|H].
  - eapply integral_bounded_same; eassumption.
  - apply integral_bounded_zero, H.
Qed.

Lemma integral_bounded__emergency_shutdown s :
  integral_bounded (snd (_emergency_shutdown hw s)).
Proof.
  destruct (_emergency_shutdown_eq hw s) as (ws & ->).
  apply integral_bounded_zero. reflexivity.
Qed.

Lemma integral_bounded_after c s :
  integral_bounded s -> integral_bounded (after hw c s).
Proof.
  intros Hb. destruct c as [r|mode|v|kp ki sp|m v| |]; cbn [after].
  - destruct (check_estop_eq hw r s) as [(est & ->) | (ws & ->)].
    + exact Hb.
    + apply integral_bounded_zero. reflexivity.
  - apply integral_bounded_set_pump_mode, Hb.
  - apply integral_bounded_set_pump_speed, Hb.
  - apply integral_bounded_set_pi_parameters, Hb.
  - destruct (manual_motor_control_cases hw m v s)
      as [-> | [(e & ->) | (ws & _ & ->)]]; exact Hb.
  - exact Hb.
  - destruct (stop_all_eq hw s) as (ws & ->). exact Hb.
Qed.

Lemma after_all_cons c cs s :
  after_all hw (c :: cs) s = after_all hw cs (after hw c s).
Proof. reflexivity. Qed.

Lemma integral_bounded_after_all cs s :
  integral_bounded s -> integral_bounded (after_all hw cs s).
Proof.
  revert s. induction cs as [|c cs IH]; intros s Hb; cbn.
  - exact Hb.
  - apply IH, integral_bounded_after, Hb.
Qed.

Lemma pi_integral_init kp ki sp md es :
  pi_integral (__init__ hw kp ki sp md es) = 0.
Proof.
  unfold __init__.
  match goal with |- context [_initialize_gpio hw ?s0] =>
    destruct (_initialize_gpio_frame hw s0) as (b & c & i & ws & ->) end.
  reflexivity.
Qed.

Lemma fmap_zero_dom (m : gmap string R) :
  dom ((fun _ : R => 0) <$> m) = dom m.
Proof. apply dom_fmap_L. Qed.

Lemma motors_wf_insert m v s :
  is_Some (motor_states s !! m) -> motors_wf s ->
  dom (<[m := v]> (motor_states s)) = motor_ids.
Proof.
  intros Hin Hwf. rewrite dom_insert_L. unfold motors_wf in Hwf.
  apply elem_of_dom in Hin. rewrite Hwf in Hin |- *.
  apply subseteq_union_1_L, singleton_subseteq_l, Hin.
Qed.

Lemma motors_wf_after c s : motors_wf s -> motors_wf (after hw c s).
Proof.
  intros Hwf. destruct c as [r|mode|v|kp ki sp|m v| |]; cbn [after].
  - destruct (check_estop_eq hw r s) as [(est & ->) | (ws & ->)].
    + exact Hwf.
    + unfold motors_wf; cbn. rewrite fmap_zero_dom. exact Hwf.
  - unfold set_pump_mode, bind, get, modify.
    destruct (negb _); cbn; [exact Hwf|].
    destruct (_ && _); exact Hwf.
  - destruct (set_pump_speed_cases v s)
      as [-> | [-> | [(ws & ->) | (ws & duty & ->)]]]; exact Hwf.
  - unfold set_pi_parameters, bind, modify, raise, ret.
    destruct kp as [kp|]; [destruct (Rltb kp 0)|];
      (destruct ki as [ki|]; [destruct (Rltb ki 0)|]);
      (destruct sp as [sp|]; [destruct (Rltb sp 0)|]);
      exact Hwf.
  - destruct (manual_motor_control_cases hw m v s)
      as [-> | [(e & ->) | (ws & Hin & ->)]]; try exact Hwf.
    unfold motors_wf; cbn. apply motors_wf_insert; assumption.
  - exact Hwf.
  - destruct (stop_all_eq hw s) as (ws & ->).
    unfold motors_wf; cbn. rewrite fmap_zero_dom. exact Hwf.
Qed.

Lemma motors_wf_init kp ki sp md es : motors_wf (__init__ hw kp ki sp md es).
Proof.
  unfold __init__.
  match goal with |- context [_initialize_gpio hw ?s0] =>
    destruct (_initialize_gpio_frame hw s0) as (b & c & i & ws & ->) end.
  unfold motors_wf, motor_ids; cbn.
  rewrite !dom_insert_L, dom_empty_L. set_solver.
Qed.

(** Whatever the clients call, the three motor keys stay. *)
Lemma motors_wf_after_all cs kp ki sp md es :
  motors_wf (after_all hw cs (__init__ hw kp ki sp md es)).
Proof.
  generalize (motors_wf_init kp ki sp md es).
  generalize (__init__ hw kp ki sp md es).
  induction cs as [|c cs IH]; intros s Hwf; cbn.
  - exact Hwf.
  - apply IH, motors_wf_after, Hwf.
Qed.

Lemma motors_wf_lookup s m :
  motors_wf s -> is_Some (motor_states s !! m) <-> m ∈ motor_ids.
Proof. unfold motors_wf. intros <-. symmetry. apply elem_of_dom. Qed.

End Invariants.

(** *** The claims about the controller *)

Section Claims.

Variable hw : lgpio.

Lemma motor_zeroed s m :
  motors_wf s -> m ∈ motor_ids ->
  ((fun _ : R => 0) <$> motor_states s) !! m = Some 0.
Proof.
  intros Hwf Hm. rewrite lookup_fmap.
  apply (motors_wf_lookup s m Hwf) in Hm. destruct Hm as [x ->]. reflexivity.
Qed.

(** C1: when [check_estop] reads the E-Stop pin as 0, the emergency
    shutdown leaves the pump duty, the three motor duties (agitator, air,
    feed) and the PI integral at 0, and [pump_mode] is what it was before. *)
Theorem check_estop_active_shuts_down s :
  estop_enabled s = true -> GPIO_AVAILABLE hw = true ->
  is_initialized s = true -> motors_wf s ->
  exists s',
    check_estop hw (Return 0%Z) s = (Return true, s') /\
    estop_triggered s' = true /\
    pump_duty s' = 0 /\
    motor_states s' !! "agitator" = Some 0 /\
    motor_states s' !! "air" = Some 0 /\
    motor_states s' !! "feed" = Some 0 /\
    pi_integral s' = 0 /\
    pump_mode s' = pump_mode s.
Proof.
  intros Hen Hav Hinit Hwf.
  pose proof (_emergency_shutdown_eq hw) as Hshut.
  unfold check_estop, bind, get. rewrite Hen, Hav, Hinit.
  set (shutdown := _emergency_shutdown hw) in *. clearbody shutdown.
  cbn. unfold try_except, bind, modify. cbn.
  destruct (Hshut (set_estop_triggered true s)) as (ws & ->). cbn.
  eexists. split; [reflexivity|]. cbn.
  repeat split; try reflexivity;
    apply motor_zeroed; try assumption; unfold motor_ids; set_solver.
Qed.

Lemma pump_mode_set_pump_speed v s :
  pump_mode (snd (set_pump_speed hw v s)) = pump_mode s.
Proof.
  destruct (set_pump_speed_cases hw v s)
    as [-> | [-> | [(ws & ->) | (ws & duty & ->)]]]; reflexivity.
Qed.

Lemma auto_run_mode vs s :
  pump_mode s = "auto" ->
  pump_mode (after_all hw (map Call_set_pump_speed vs) s) = "auto".
Proof.
  revert s. induction vs as [|v vs IH]; intros s Hm; [exact Hm|].
  cbn [map]. rewrite after_all_cons. apply IH.
  cbn [after]. rewrite pump_mode_set_pump_speed. exact Hm.
Qed.

(** C2: from the constructor's state, after any sequence of AUTO-mode
    [set_pump_speed] calls (indeed after any sequence of calls of the public
    methods) the PI integral lies in [-50, 50]; and [set_pump_speed],
    [set_pump_mode], [set_pi_parameters] and the emergency shutdown each
    keep that bound. *)
Theorem pi_integral_bounded :
  (forall kp ki sp md es (vs : list R),
      let s := after_all hw (Call_set_pump_mode "auto"
                               :: map Call_set_pump_speed vs)
                 (__init__ hw kp ki sp md es) in
      pump_mode s = "auto" /\ -50 <= pi_integral s <= 50)
  /\ (forall kp ki sp md es (cs : list call),
         -50 <= pi_integral (after_all hw cs (__init__ hw kp ki sp md es)) <= 50)
  /\ (forall s, -50 <= pi_integral s <= 50 ->
        (forall v, -50 <= pi_integral (snd (set_pump_speed hw v s)) <= 50)
        /\ (forall mode, -50 <= pi_integral (snd (set_pump_mode mode s)) <= 50)
        /\ (forall kp ki sp,
               -50 <= pi_integral (snd (set_pi_parameters kp ki sp s)) <= 50)
        /\ -50 <= pi_integral (snd (_emergency_shutdown hw s)) <= 50).
Proof.
  assert (Hinit : forall kp ki sp md es,
             integral_bounded (__init__ hw kp ki sp md es)).
  { intros. apply integral_bounded_zero, pi_integral_init. }
  split; [|split].
  - intros kp ki sp md es vs s. subst s. split.
    + rewrite after_all_cons. apply auto_run_mode.
      cbn [after]. unfold set_pump_mode, bind, get, modify; cbn.
      destruct (negb _); reflexivity.
    + apply integral_bounded_after_all, Hinit.
  - intros. apply integral_bounded_after_all, Hinit.
  - intros s Hb. repeat split.
    + apply (integral_bounded_set_pump_speed hw v s Hb).
    + apply (integral_bounded_set_pump_speed hw v s Hb).
    + apply (integral_bounded_set_pump_mode mode s Hb).
    + apply (integral_bounded_set_pump_mode mode s Hb).
    + apply (integral_bounded_set_pi_parameters kp ki sp s Hb).
    + apply (integral_bounded_set_pi_parameters kp ki sp s Hb).
    + apply (integral_bounded__emergency_shutdown hw s).
    + apply (integral_bounded__emergency_shutdown hw s).
Qed.

(** C3: in MANUAL mode with the interlock not triggered, a duty [d] in
    [0, 100] makes the pump duty [min(d, max_pump_duty)]; a duty outside
    [0, 100] raises [ValueError] and the object is left as it was. *)
Theorem manual_set_pump_speed s d :
  pump_mode s = "manual" -> estop_triggered s = false ->
  (0 <= d <= 100 ->
     exists s', set_pump_speed hw d s = (Return tt, s') /\
                pump_duty s' = Rmin d (max_pump_duty s))
  /\ (~ (0 <= d <= 100) ->
        set_pump_speed hw d s = (Raise ValueError, s) /\
        pump_duty (snd (set_pump_speed hw d s)) = pump_duty s).
Proof.
  intros Hm He. split.
  - intros Hd.
    destruct (set_pump_speed_manual_ok hw d s He Hm Hd) as (ws & ->).
    eexists. split; [reflexivity|]. cbn. apply py_min_Rmin.
  - intros Hd. rewrite (set_pump_speed_manual_bad hw d s He Hm Hd).
    split; reflexivity.
Qed.

(** C8: with the interlock not triggered, [manual_motor_control('air', 75)]
    stores 75 for the air motor and [get_status] reads 75 back; a following
    [manual_motor_control('air', 150)] raises [ValueError] and the stored
    value stays 75; an id outside agitator, air, feed raises [ValueError]
    and changes nothing. *)
Theorem manual_motor_control_scenario s :
  estop_triggered s = false -> motors_wf s ->
  exists s1 st,
    manual_motor_control hw "air" 75 s = (Return tt, s1) /\
    motor_states s1 !! "air" = Some 75 /\
    get_status s1 = (Return st, s1) /\
    st_motors st !! "air" = Some 75 /\
    manual_motor_control hw "air" 150 s1 = (Raise ValueError, s1) /\
    motor_states (snd (manual_motor_control hw "air" 150 s1)) !! "air"
      = Some 75 /\
    (forall motor_id pwm_value,
        motor_id ∉ motor_ids ->
        manual_motor_control hw motor_id pwm_value s
          = (Raise ValueError, s) /\
        manual_motor_control hw motor_id pwm_value s1
          = (Raise ValueError, s1)).
Proof.
  intros He Hwf.
  assert (Hair : is_Some (motor_states s !! "air")).
  { apply (motors_wf_lookup s "air" Hwf). unfold motor_ids. set_solver. }
  assert (H75 : Rleb 0 75 && Rleb 75 100 = true) by (apply in_range_true; lra).
  assert (H150 : Rleb 0 150 && Rleb 150 100 = false)
    by (apply in_range_false; lra).
  assert (Hrej : forall s2 motor_id pwm_value,
             estop_triggered s2 = false -> motors_wf s2 ->
             motor_id ∉ motor_ids ->
             manual_motor_control hw motor_id pwm_value s2
             = (Raise ValueError, s2)).
  { intros s2 m v He2 Hwf2 Hm.
    unfold manual_motor_control, bind, get. rewrite He2.
    rewrite bool_decide_eq_false_2; [reflexivity|].
    rewrite (motors_wf_lookup s2 m Hwf2). exact Hm. }
  pose proof (_set_pwm_frame hw) as Hpwm.
  assert (Hstep : exists ws,
             manual_motor_control hw "air" 75 s
             = (Return tt,
                set_pwm_writes ws
                  (set_motor_states (<["air" := 75]> (motor_states s)) s))).
  { unfold manual_motor_control, bind, get. rewrite He.
    rewrite bool_decide_eq_true_2 by exact Hair. cbn [negb]. rewrite H75.
    cbn [negb]. change (pin_map !! "air") with (Some PIN_AIR_PUMP).
    unfold modify.
    match goal with |- context [_set_pwm hw ?p ?d ?s'] =>
      destruct (Hpwm p d s') as (b & ws & ->) end.
    exists ws. reflexivity. }
  destruct Hstep as (ws & Hstep). rewrite Hstep.
  set (s1 := set_pwm_writes ws _).
  assert (Hl1 : motor_states s1 !! "air" = Some 75)
    by (subst s1; cbn; apply lookup_insert_eq).
  assert (H2 : manual_motor_control hw "air" 150 s1 = (Raise ValueError, s1)).
  { unfold manual_motor_control, bind, get.
    replace (estop_triggered s1) with false by (symmetry; exact He).
    rewrite bool_decide_eq_true_2 by (rewrite Hl1; eauto).
    cbn [negb]. rewrite H150. reflexivity. }
  exists s1. eexists. split; [reflexivity|]. split; [exact Hl1|].
  split; [reflexivity|]. split; [exact Hl1|]. split; [exact H2|].
  split; [rewrite H2; exact Hl1|].
  intros m v Hm. split.
  - apply Hrej; assumption.
  - apply Hrej; try assumption.
    unfold motors_wf. subst s1; cbn. apply motors_wf_insert; assumption.
Qed.

(** C10: while the interlock is triggered, [set_pump_speed] and
    [manual_motor_control] return without raising whatever their
    arguments, and change nothing. *)
Theorem estop_vetoes_actuation s :
  estop_triggered s = true ->
  forall (value : R) (motor_id : string) (pwm_value : R),
    set_pump_speed hw value s = (Return tt, s) /\
    manual_motor_control hw motor_id pwm_value s = (Return tt, s).
Proof.
  intros He value motor_id pwm_value. split.
  - apply set_pump_speed_estop, He.
  - apply manual_motor_control_estop, He.
Qed.

End Claims.

(** C4: [set_pump_mode('auto')] from MANUAL zeroes the PI integral and the
    last error; from AUTO it changes nothing; a mode other than ['auto']
    and ['manual'] raises [ValueError]. *)
Theorem set_pump_mode_transitions s mode :
  (pump_mode s = "manual" ->
     exists s', set_pump_mode "auto" s = (Return tt, s') /\
                pump_mode s' = "auto" /\
                pi_integral s' = 0 /\ pi_last_error s' = 0)
  /\ (pump_mode s = "auto" -> set_pump_mode "auto" s = (Return tt, s))
  /\ (mode <> "auto" -> mode <> "manual" ->
        set_pump_mode mode s = (Raise ValueError, s)).
Proof.
  split; [|split].
  - intros Hm. rewrite set_pump_mode_enter_auto by (rewrite Hm; discriminate).
    eexists. split; [reflexivity|]. repeat split.
  - apply set_pump_mode_stay_auto.
  - apply set_pump_mode_invalid.
Qed.

(** A call with a negative value supplied is rejected, and neither the
    setpoint nor the integral moves. *)
Lemma set_pi_parameters_rejects kp ki sp s :
  (exists x, (kp = Some x \/ ki = Some x \/ sp = Some x) /\ x < 0) ->
  exists s',
    set_pi_parameters kp ki sp s = (Raise ValueError, s')
    /\ pi_setpoint s' = pi_setpoint s
    /\ pi_integral s' = pi_integral s.
Proof.
  intros (x & Hx & Hneg).
  unfold set_pi_parameters, bind, modify, raise, ret.
  destruct kp as [kp|]; [destruct (Rltb kp 0) eqn:Hkp|];
    (destruct ki as [ki|]; [destruct (Rltb ki 0) eqn:Hki|]);
    (destruct sp as [sp|]; [destruct (Rltb sp 0) eqn:Hsp|]);
    cbn; try (eexists; repeat split; fail);
    exfalso; rewrite ?Rltb_false in *;
    destruct Hx as [Hx | [Hx | Hx]];
    try discriminate Hx; injection Hx as ->; tauto.
Qed.

(** C6 fails on the code: with [kp=2.0, ki=-1.0] the call raises
    [ValueError] after it has stored the new [kp]. *)
Theorem set_pi_parameters_partial_update :
  let s := default_controller simulation in
  exists s',
    set_pi_parameters (Some 2) (Some (-1)) None s = (Raise ValueError, s')
    /\ pi_kp s = 0.5
    /\ pi_kp s' = 2
    /\ pi_ki s' = pi_ki s
    /\ pi_setpoint s' = pi_setpoint s
    /\ pi_integral s' = pi_integral s.
Proof.
  intros s. subst s.
  unfold set_pi_parameters, bind, modify, raise, ret.
  rewrite (proj2 (Rltb_false 2 0)) by lra.
  rewrite (proj2 (Rltb_true (-1) 0)) by lra.
  eexists. split; [reflexivity|]. cbn. repeat split.
Qed.

(** *** The theorems at concrete objects *)

Lemma check_estop_active_shuts_down_witness :
  let s := default_controller raspberry_pi in
  estop_enabled s = true /\ GPIO_AVAILABLE raspberry_pi = true
  /\ is_initialized s = true /\ motors_wf s
  /\ exists s',
      check_estop raspberry_pi (Return 0%Z) s = (Return true, s') /\
      estop_triggered s' = true /\
      pump_duty s' = 0 /\
      motor_states s' !! "agitator" = Some 0 /\
      motor_states s' !! "air" = Some 0 /\
      motor_states s' !! "feed" = Some 0 /\
      pi_integral s' = 0 /\
      pump_mode s' = pump_mode s.
Proof.
  intros s.
  assert (Hwf : motors_wf s) by apply motors_wf_init.
  repeat (split; [first [reflexivity | exact Hwf]|]).
  apply (check_estop_active_shuts_down raspberry_pi s);
    [reflexivity | reflexivity | reflexivity | exact Hwf].
Defined.

Lemma pi_integral_bounded_witness :
  let s := default_controller simulation in
  -50 <= pi_integral s <= 50
  /\ -50 <= pi_integral (snd (set_pump_speed simulation 100 s)) <= 50
  /\ -50 <= pi_integral (snd (set_pump_mode "auto" s)) <= 50
  /\ -50 <= pi_integral (snd (_emergency_shutdown simulation s)) <= 50.
Proof.
  intros s.
  assert (H : -50 <= pi_integral s <= 50) by (cbn; lra).
  destruct (pi_integral_bounded simulation) as (_ & _ & Hkeep).
  destruct (Hkeep s H) as (Hspeed & Hmode & _ & Hshut).
  split; [exact H|]. split; [apply Hspeed|]. split; [apply Hmode|exact Hshut].
Defined.

Lemma manual_set_pump_speed_witness :
  let s := default_controller simulation in
  pump_mode s = "manual" /\ estop_triggered s = false
  /\ (exists s', set_pump_speed simulation 50 s = (Return tt, s') /\
                 pump_duty s' = Rmin 50 (max_pump_duty s))
  /\ set_pump_speed simulation 150 s = (Raise ValueError, s).
Proof.
  intros s. split; [reflexivity|]. split; [reflexivity|]. split.
  - apply (manual_set_pump_speed simulation s 50); [reflexivity|reflexivity|lra].
  - apply (manual_set_pump_speed simulation s 150);
      [reflexivity|reflexivity|lra].
Defined.

Lemma set_pump_mode_transitions_witness :
  let s := default_controller simulation in
  pump_mode s = "manual"
  /\ (exists s', set_pump_mode "auto" s = (Return tt, s') /\
                 pump_mode s' = "auto" /\
                 pi_integral s' = 0 /\ pi_last_error s' = 0)
  /\ set_pump_mode "off" s = (Raise ValueError, s).
Proof.
  intros s. split; [reflexivity|].
  destruct (set_pump_mode_transitions s "off") as (Henter & _ & Hbad).
  split; [apply Henter; reflexivity | apply Hbad; discriminate].
Defined.

Lemma manual_motor_control_scenario_witness :
  let s := default_controller simulation in
  estop_triggered s = false /\ motors_wf s
  /\ exists s1 st,
      manual_motor_control simulation "air" 75 s = (Return tt, s1) /\
      motor_states s1 !! "air" = Some 75 /\
      get_status s1 = (Return st, s1) /\
      st_motors st !! "air" = Some 75 /\
      manual_motor_control simulation "air" 150 s1 = (Raise ValueError, s1).
Proof.
  intros s.
  assert (Hwf : motors_wf s) by apply motors_wf_init.
  split; [reflexivity|]. split; [exact Hwf|].
  destruct (manual_motor_control_scenario simulation s eq_refl Hwf)
    as (s1 & st & H1 & H2 & H3 & H4 & H5 & _).
  exists s1, st. repeat split; assumption.
Defined.

Lemma estop_vetoes_actuation_witness :
  let s := snd (check_estop raspberry_pi (Return 0%Z)
                  (default_controller raspberry_pi)) in
  estop_triggered s = true
  /\ set_pump_speed raspberry_pi 150 s = (Return tt, s)
  /\ manual_motor_control raspberry_pi "bogus" 150 s = (Return tt, s).
Proof.
  intros s.
  assert (He : estop_triggered s = true) by reflexivity.
  split; [exact He|].
  apply (estop_vetoes_actuation raspberry_pi s He 150 "bogus" 150).
Defined.

End ControllerFacts.

(** ** Properties of the vision metrics *)

Module VisionFacts.
Import Vision.

Lemma np_std_nonneg xs : 0 <= np_std xs.
Proof. apply sqrt_pos. Qed.

(** The two circles pass the filters of [_analyze_contours]. *)
Lemma two_circles_data :
  _analyze_contours default_processor two_circles
  = {| bd_count := 2; bd_diameters := [20; 40];
       bd_areas := [100 * PI; 400 * PI];
       bd_avg_diameter := 30; bd_mask := None |}.
Proof.
  pose proof PI_gt_2 as Hpi.
  assert (Hd1 : 2 * sqrt (100 * PI / PI) = 20).
  { replace (100 * PI / PI) with (10 * 10) by (field; lra).
    rewrite sqrt_square by lra. lra. }
  assert (Hd2 : 2 * sqrt (400 * PI / PI) = 40).
  { replace (400 * PI / PI) with (20 * 20) by (field; lra).
    rewrite sqrt_square by lra. lra. }
  assert (Hc1 : 4 * PI * (100 * PI) / (20 * PI * (20 * PI)) = 1)
    by (field; lra).
  assert (Hc2 : 4 * PI * (400 * PI) / (40 * PI * (40 * PI)) = 1)
    by (field; lra).
  unfold _analyze_contours, two_circles, default_processor, __init__.
  cbn [analyze_loop contourArea arcLength min_bubble_area
       circularity_threshold].
  rewrite Hd1, Hd2, Hc1, Hc2.
  rewrite (proj2 (Rltb_false (100 * PI) 80)) by nra.
  rewrite (proj2 (Rltb_false (400 * PI) 80)) by nra.
  rewrite (proj2 (Rleb_false (20 * PI) 0)) by nra.
  rewrite (proj2 (Rleb_false (40 * PI) 0)) by nra.
  rewrite (proj2 (Rltb_false 1 0.45)) by lra.
  cbn. f_equal. unfold np_mean, np_sum. cbn. lra.
Qed.

Lemma np_std_20_40 : np_std [20; 40] = 10.
Proof.
  unfold np_std.
  assert (Hm : np_mean [20; 40] = 30) by (unfold np_mean, np_sum; cbn; lra).
  rewrite Hm. cbn [map]. rewrite <- !Rsqr_abs.
  unfold np_mean, np_sum. cbn. unfold Rsqr.
  match goal with |- sqrt ?x = _ => replace x with (10 * 10) by lra end.
  apply sqrt_square. lra.
Qed.

Lemma froth_size_uniformity_two_circles :
  froth_size_uniformity (_analyze_contours default_processor two_circles)
  = 3 / 4.
Proof.
  rewrite two_circles_data. unfold froth_size_uniformity, size_uniformity.
  cbn [bd_avg_diameter bd_diameters is_nonempty]. rewrite np_std_20_40.
  rewrite (proj2 (Rltb_true 0 30)) by lra. lra.
Qed.

Lemma size_uniformity_spec_two_circles :
  size_uniformity_spec (_analyze_contours default_processor two_circles)
  = 1 / (1 + 10 / (250 * PI)).
Proof.
  pose proof PI_gt_2 as Hpi.
  rewrite two_circles_data. unfold size_uniformity_spec.
  cbn [bd_areas bd_diameters is_nonempty]. rewrite np_std_20_40.
  assert (Hm : np_mean [100 * PI; 400 * PI] = 250 * PI)
    by (unfold np_mean, np_sum; cbn; lra).
  rewrite Hm. rewrite (proj2 (Rltb_true 0 (250 * PI))) by lra. reflexivity.
Qed.

(** What [analyze_froth] returns: the zeroed metrics when the coverage
    step faults, and otherwise the metrics computed from the bubble data
    and the history just extended. *)
Lemma analyze_froth_cases frame data self :
  analyze_froth frame data self = (Return zero_metrics, self)
  \/ exists m,
      analyze_froth frame data self
      = (Return m,
         append_history (bd_count data)
           (if is_nonempty (bd_areas data) then np_mean (bd_areas data) else 0)
           self)
      /\ bubble_count m = bd_count data
      /\ avg_bubble_size m
         = (if is_nonempty (bd_areas data) then np_mean (bd_areas data) else 0)
      /\ size_std_dev m
         = (if is_nonempty (bd_diameters data)
            then np_std (bd_diameters data) else 0)
      /\ froth_stability m
         = np_clip
             (0.4 * froth_size_uniformity data
              + 0.4 * count_consistency
                        (deque_append (history_size self) (bd_count data)
                           (bubble_count_history self))
              + 0.2 * density_score (bd_count data)) 0 1.
Proof.
  unfold analyze_froth, try_except, bind, get, modify, index, ret, raise.
  destruct (bd_mask data) as [mask|].
  - destruct frame as [frame|]; [|left; reflexivity].
    destruct (nd_shape frame !! 0%nat) as [rows|]; [|left; reflexivity].
    destruct (nd_shape frame !! 1%nat) as [cols|]; [|left; reflexivity].
    right. eexists. split; [reflexivity|]. cbn. repeat split.
  - right. eexists. split; [reflexivity|]. cbn. repeat split.
Qed.

(** C5, as the code has it: the size-uniformity term of the stability
    score is [1 / (1 + size_std_dev / avg_diameter)] when [avg_diameter > 0]
    and 0 otherwise, where [avg_diameter] is the bubble data's average
    diameter (the arithmetic mean of the accepted diameters, 0 if none) and
    [size_std_dev] the population standard deviation of the diameters. *)
Theorem size_uniformity_term :
  (forall self contours,
      let data := _analyze_contours self contours in
      bd_avg_diameter data
      = (if is_nonempty (bd_diameters data)
         then np_mean (bd_diameters data) else 0))
  /\ (forall data : bubble_data,
         let size_std_dev :=
           if is_nonempty (bd_diameters data)
           then np_std (bd_diameters data) else 0 in
         (0 < bd_avg_diameter data ->
            froth_size_uniformity data
            = 1 / (1 + size_std_dev / bd_avg_diameter data))
         /\ (~ 0 < bd_avg_diameter data -> froth_size_uniformity data = 0))
  /\ (forall frame data self,
         analyze_froth frame data self = (Return zero_metrics, self)
         \/ exists m self',
             analyze_froth frame data self = (Return m, self')
             /\ froth_stability m
                = np_clip
                    (0.4 * froth_size_uniformity data
                     + 0.4 * count_consistency (bubble_count_history self')
                     + 0.2 * density_score (bd_count data)) 0 1).
Proof.
  split; [|split].
  - intros self contours. unfold _analyze_contours.
    destruct (analyze_loop self contours [] []) as [diameters areas].
    reflexivity.
  - intros data size_std_dev. unfold froth_size_uniformity, size_uniformity.
    fold size_std_dev. unfold Rltb. case_bool_decide; split;
      intros; try reflexivity; tauto.
  - intros frame data self.
    destruct (analyze_froth_cases frame data self)
      as [H | (m & H & _ & _ & _ & Hst)]; [left; exact H|].
    right. eexists m, _. split; [exact H|]. exact Hst.
Qed.

(** C5, as the specification words it, fails on two circular bubbles of
    radius 10 and 20: the code's term is 3/4, the one over the mean area
    is not. *)
Lemma size_uniformity_not_over_mean_area :
  froth_size_uniformity (_analyze_contours default_processor two_circles)
  <> size_uniformity_spec (_analyze_contours default_processor two_circles).
Proof.
  rewrite froth_size_uniformity_two_circles, size_uniformity_spec_two_circles.
  pose proof PI_gt_2 as Hpi. intros H.
  assert (Hsmall : 10 / (250 * PI) < 1 / 3).
  { apply (Rmult_lt_reg_r (250 * PI)); [lra|].
    unfold Rdiv at 1. rewrite Rmult_assoc, Rinv_l by lra. lra. }
  assert (H1 : (1 + 10 / (250 * PI)) * (3 / 4) = 1).
  { rewrite H. field. lra. }
  assert (Hpos : 0 < 10 / (250 * PI)) by (apply Rdiv_lt_0_compat; lra).
  lra.
Qed.

(** C7, as the code has it: [count_consistency] is 0.5 for every history
    shorter than 3; for a history of 3 or more entries it is
    [1 / (1 + std / mean)] when the mean is positive and 0 otherwise, so it
    is 0.5 there exactly when the standard deviation equals a positive
    mean. *)
Theorem count_consistency_cases (history : list Z) :
  let count_mean := np_mean (map IZR history) in
  let count_std := np_std (map IZR history) in
  ((length history < 3)%nat -> count_consistency history = 0.5)
  /\ ((3 <= length history)%nat ->
        (0 < count_mean ->
           count_consistency history = 1 / (1 + count_std / count_mean))
        /\ (~ 0 < count_mean -> count_consistency history = 0)
        /\ (count_consistency history = 0.5
            <-> 0 < count_mean /\ count_std = count_mean)).
Proof.
  intros count_mean count_std. unfold count_consistency.
  fold count_mean count_std. split.
  - intros Hlen. destruct (Nat.leb_spec 3 (length history)); [lia|reflexivity].
  - intros Hlen. destruct (Nat.leb_spec 3 (length history)); [|lia].
    pose proof (np_std_nonneg (map IZR history)) as Hstd.
    fold count_std in Hstd.
    unfold Rltb. case_bool_decide as Hpos.
    + assert (Hq : 0 <= count_std / count_mean).
      { apply Rmult_le_pos; [exact Hstd|].
        left. apply Rinv_0_lt_compat, Hpos. }
      split; [reflexivity|]. split; [tauto|]. split.
      * intros Heq. split; [exact Hpos|].
        assert (Hone : count_std / count_mean = 1).
        { assert (H2 : (1 + count_std / count_mean) * 0.5 = 1).
          { rewrite <- Heq. field. lra. }
          lra. }
        apply (f_equal (fun x => x * count_mean)) in Hone.
        unfold Rdiv in Hone. rewrite Rmult_assoc, Rinv_l in Hone by lra. lra.
      * intros [_ Heq]. rewrite Heq.
        replace (count_mean / count_mean) with 1 by (field; lra). lra.
    + split; [tauto|]. split; [reflexivity|]. split; [lra|tauto].
Qed.

(** C7, as stated, fails on the history 0, 0, 2, 2: four entries, and a
    count consistency of 0.5. *)
Lemma count_consistency_half_on_long_history :
  (3 <= length [0; 0; 2; 2]%Z)%nat
  /\ count_consistency [0; 0; 2; 2]%Z = 0.5.
Proof.
  split; [cbn; lia|].
  unfold count_consistency. cbn [length Nat.leb map].
  assert (Hm : np_mean [0; 0; 2; 2] = 1) by (unfold np_mean, np_sum; cbn; lra).
  assert (Hs : np_std [0; 0; 2; 2] = 1).
  { unfold np_std. rewrite Hm. cbn [map]. rewrite <- !Rsqr_abs.
    unfold np_mean, np_sum. cbn. unfold Rsqr.
    match goal with |- sqrt ?x = _ => replace x with (1 * 1) by lra end.
    apply sqrt_square. lra. }
  rewrite Hm, Hs. rewrite (proj2 (Rltb_true 0 1)) by lra. lra.
Qed.

Section WithOpenCV.

Variable cv_segment : VisionProcessor -> ndarray -> outcome (list contour * ndarray).


(** C9: on a [None] frame or a frame of size 0, [process_bubbles] returns
    the empty result (count 0, no diameters, no areas, average diameter 0,
    no mask) and does not raise. *)
Theorem process_bubbles_empty_frame frame self :
  frame = None \/ (exists f, frame = Some f /\ nd_size f = 0%nat) ->
  exists data,
    process_bubbles cv_segment frame self = (Return data, self)
    /\ bd_count data = 0%Z
    /\ bd_diameters data = []
    /\ bd_areas data = []
    /\ bd_avg_diameter data = 0
    /\ bd_mask data = None.
Proof.
  intros [-> | (f & -> & Hsize)]; exists empty_bubble_data.
  - repeat split.
  - unfold process_bubbles. rewrite Hsize. repeat split.
Qed.

End WithOpenCV.

(** The history 0, 0, 2, 2 is what four frames with 0, 0, 2 and 2 bubbles
    leave behind. *)
Example history_after_four_frames a :
  bubble_count_history
    (append_history 2 a
       (append_history 2 a
          (append_history 0 0 (append_history 0 0 default_processor))))
  = [0; 0; 2; 2]%Z.
Proof. reflexivity. Qed.

(** *** The theorems at concrete inputs *)

Lemma size_uniformity_term_witness :
  let data := _analyze_contours default_processor two_circles in
  0 < bd_avg_diameter data
  /\ froth_size_uniformity data
     = 1 / (1 + np_std (bd_diameters data) / bd_avg_diameter data).
Proof.
  intros data.
  assert (Hpos : 0 < bd_avg_diameter data).
  { subst data. rewrite two_circles_data. cbn. lra. }
  split; [exact Hpos|].
  destruct size_uniformity_term as (_ & Hterm & _).
  destruct (Hterm data) as [Hgt _].
  rewrite (Hgt Hpos). subst data. rewrite two_circles_data. reflexivity.
Defined.

Lemma count_consistency_cases_witness :
  (length [7]%Z < 3)%nat /\ count_consistency [7]%Z = 0.5
  /\ (3 <= length [0; 0; 0]%Z)%nat /\ count_consistency [0; 0; 0]%Z = 0.
Proof.
  assert (H1 : (length [7]%Z < 3)%nat) by (cbn; lia).
  assert (H3 : (3 <= length [0; 0; 0]%Z)%nat) by (cbn; lia).
  split; [exact H1|]. split.
  - destruct (count_consistency_cases [7]%Z) as [Hshort _].
    exact (Hshort H1).
  - split; [exact H3|].
    destruct (count_consistency_cases [0; 0; 0]%Z) as [_ Hlong].
    destruct (Hlong H3) as (_ & Hzero & _).
    apply Hzero. unfold np_mean, np_sum. cbn. lra.
Defined.

Lemma process_bubbles_empty_frame_witness :
  nd_size zero_size_frame = 0%nat
  /\ (exists data,
        process_bubbles cv_failing (Some zero_size_frame) default_processor
        = (Return data, default_processor)
        /\ bd_count data = 0%Z
        /\ bd_diameters data = []
        /\ bd_areas data = []
        /\ bd_avg_diameter data = 0
        /\ bd_mask data = None).
Proof.
  split; [reflexivity|].
  apply (process_bubbles_empty_frame cv_failing (Some zero_size_frame)
           default_processor).
  right. exists zero_size_frame. split; reflexivity.
Defined.

End VisionFacts.

(** ** More about the controller: ranges, the device side, teardown *)

Module ControllerMore.
Import Controller Lifecycle ControllerFacts.

Section Exact.

Variable hw : lgpio.

Lemma _set_pwm_eq pin d s :
  _set_pwm hw pin d s
  = (Return (fst (pwm_result hw pin d s)), snd (pwm_result hw pin d s)).
Proof.
  unfold _set_pwm, pwm_result. destruct (GPIO_AVAILABLE hw); cbn; [|reflexivity].
  unfold bind, get. destruct (is_initialized s); cbn; [|reflexivity].
  unfold try_except, bind, tx_pwm. destruct (tx_pwm_ok hw pin _); reflexivity.
Qed.

Lemma for_set_pwm_eq pins d s :
  for_ pins (fun pin => _set_pwm hw pin d) s = (Return tt, pwm_each hw pins d s).
Proof.
  revert s. induction pins as [|pin pins IH]; intros s; [reflexivity|].
  cbn [for_]. unfold bind. rewrite _set_pwm_eq. rewrite IH. reflexivity.
Qed.

Lemma pwm_result_attrs pin d s :
  exists ws, snd (pwm_result hw pin d s) = set_pwm_writes ws s.
Proof.
  unfold pwm_result.
  destruct (negb _); [exists (pwm_writes s); destruct s; reflexivity|].
  destruct (negb _); [exists (pwm_writes s); destruct s; reflexivity|].
  destruct (tx_pwm_ok _ _ _); [eexists; reflexivity|].
  exists (pwm_writes s); destruct s; reflexivity.
Qed.

Lemma pwm_each_attrs pins d s :
  exists ws, pwm_each hw pins d s = set_pwm_writes ws s.
Proof.
  revert s. induction pins as [|pin pins IH]; intros s; cbn.
  - exists (pwm_writes s); destruct s; reflexivity.
  - destruct (pwm_result_attrs pin d s) as (ws & ->).
    destruct (IH (set_pwm_writes ws s)) as (ws' & H).
    unfold pwm_each in H. rewrite H. exists ws'. reflexivity.
Qed.

Lemma _emergency_shutdown_exact s :
  _emergency_shutdown hw s
  = (Return tt,
     set_pi_integral 0
       (set_motor_states ((fun _ => 0) <$> motor_states (pwm_each hw all_pwm_pins 0 s))
          (set_pump_duty 0 (pwm_each hw all_pwm_pins 0 s)))).
Proof.
  unfold _emergency_shutdown, bind. rewrite for_set_pwm_eq. reflexivity.
Qed.

Lemma stop_all_exact s :
  stop_all hw s
  = (Return tt,
     set_motor_states ((fun _ => 0) <$> motor_states (pwm_each hw all_pwm_pins 0 s))
       (set_pump_duty 0 (pwm_each hw all_pwm_pins 0 s))).
Proof.
  unfold stop_all, bind. rewrite for_set_pwm_eq. reflexivity.
Qed.

Lemma set_pump_speed_manual_exact v s :
  estop_triggered s = false -> pump_mode s = "manual" -> 0 <= v <= 100 ->
  set_pump_speed hw v s
  = (Return tt,
     snd (pwm_result hw PIN_PERISTALTIC (py_min v (max_pump_duty s))
            (set_pump_duty (py_min v (max_pump_duty s)) s))).
Proof.
  intros He Hm Hv. unfold set_pump_speed, bind, get. rewrite He, Hm. cbn.
  apply in_range_true in Hv. rewrite Hv. cbn. unfold modify.
  rewrite _set_pwm_eq. reflexivity.
Qed.

Lemma set_pump_speed_auto_exact v s :
  estop_triggered s = false -> pump_mode s <> "manual" ->
  set_pump_speed hw v s
  = (Return tt,
     snd (pwm_result hw PIN_PERISTALTIC (pi_step_duty v s)
            (set_pump_duty (pi_step_duty v s)
               (set_pi_last_error (pi_setpoint s - v)
                  (set_pi_integral (pi_step_integral v s) s))))).
Proof.
  intros He Hm. unfold set_pump_speed, bind, get. rewrite He.
  apply String.eqb_neq in Hm. rewrite Hm.
  unfold _pi_update, bind, get, modify, ret. cbn.
  rewrite _set_pwm_eq. reflexivity.
Qed.

Lemma pin_map_pins m pin : pin_map !! m = Some pin -> pin ∈ all_pwm_pins.
Proof.
  unfold pin_map. rewrite !lookup_insert_Some, lookup_empty.
  intros [[_ <-] | [_ [[_ <-] | [_ [[_ <-] | [_ H]]]]]];
    try discriminate H; apply list_elem_of_In; cbn; auto.
Qed.

Lemma pump_pin_in_all : PIN_PERISTALTIC ∈ all_pwm_pins.
Proof. apply list_elem_of_In; cbn; auto. Qed.

Lemma manual_motor_control_exact_cases m v s :
  manual_motor_control hw m v s = (Return tt, s)
  \/ (exists e, manual_motor_control hw m v s = (Raise e, s))
  \/ (exists pin,
        estop_triggered s = false /\ is_Some (motor_states s !! m)
        /\ 0 <= v <= 100 /\ pin_map !! m = Some pin
        /\ manual_motor_control hw m v s
           = (Return tt,
              snd (pwm_result hw pin v
                     (set_motor_states (<[m := v]> (motor_states s)) s)))).
Proof.
  unfold manual_motor_control, bind, get.
  destruct (estop_triggered s) eqn:He; [left; reflexivity|].
  case_bool_decide as Hin; cbn; [|right; left; eexists; reflexivity].
  destruct (Rleb 0 v && Rleb v 100) eqn:Hv; cbn;
    [|right; left; eexists; reflexivity].
  destruct (pin_map !! m) as [pin|] eqn:Hpin;
    [|right; left; eexists; reflexivity].
  right; right. exists pin. unfold modify. rewrite _set_pwm_eq.
  apply in_range_true in Hv. repeat split; try assumption; tauto.
Qed.

Lemma check_estop_not_polled r s :
  estop_polled hw s = false -> check_estop hw r s = (Return false, s).
Proof.
  unfold estop_polled. intros Hn. unfold check_estop, bind, get.
  destruct (estop_enabled s), (GPIO_AVAILABLE hw), (is_initialized s);
    cbn in *; try reflexivity; discriminate.
Qed.

Lemma check_estop_polled r s :
  estop_polled hw s = true ->
  check_estop hw r s
  = match r with
    | Raise _ => (Return false, s)
    | Return lvl =>
        if Z.eqb lvl 0
        then (Return true,
              snd (_emergency_shutdown hw (set_estop_triggered true s)))
        else (Return false, set_estop_triggered false s)
    end.
Proof.
  unfold estop_polled. intros Hp.
  apply andb_true_iff in Hp as [Hp H3]. apply andb_true_iff in Hp as [H1 H2].
  unfold check_estop, bind, get. rewrite H1, H2, H3.
  cbn [negb orb]. unfold try_except, bind, modify.
  destruct r as [lvl|e]; [|reflexivity].
  destruct (Z.eqb lvl 0); cbn [estop_triggered set_estop_triggered].
  - rewrite _emergency_shutdown_exact.
    destruct (pwm_each_attrs all_pwm_pins 0 (set_estop_triggered true s))
      as (ws & ->).
    reflexivity.
  - reflexivity.
Qed.

Lemma cleanup_exact close s :
  cleanup hw close s
  = (Return tt, set_chip None (set_is_initialized false (snd (stop_all hw s)))).
Proof.
  unfold cleanup, bind, get. rewrite stop_all_exact. cbn [snd].
  destruct (GPIO_AVAILABLE hw); [|reflexivity].
  match goal with |- context [chip ?x] => destruct (chip x) end;
    [|reflexivity].
  unfold try_except. destruct close; reflexivity.
Qed.

Lemma set_pump_speed_exact_cases v s :
  set_pump_speed hw v s = (Return tt, s)
  \/ set_pump_speed hw v s = (Raise ValueError, s)
  \/ (0 <= v <= 100
      /\ set_pump_speed hw v s
         = (Return tt,
            snd (pwm_result hw PIN_PERISTALTIC (py_min v (max_pump_duty s))
                   (set_pump_duty (py_min v (max_pump_duty s)) s))))
  \/ set_pump_speed hw v s
     = (Return tt,
        snd (pwm_result hw PIN_PERISTALTIC (pi_step_duty v s)
               (set_pump_duty (pi_step_duty v s)
                  (set_pi_last_error (pi_setpoint s - v)
                     (set_pi_integral (pi_step_integral v s) s))))).
Proof.
  destruct (estop_triggered s) eqn:He.
  { left. apply set_pump_speed_estop, He. }
  destruct (decide (pump_mode s = "manual")) as [Hm|Hm].
  - destruct (decide (0 <= v <= 100)) as [Hv|Hv].
    + right; right; left. split; [exact Hv|].
      apply set_pump_speed_manual_exact; assumption.
    + right; left. apply set_pump_speed_manual_bad; assumption.
  - right; right; right. apply set_pump_speed_auto_exact; assumption.
Qed.

(** *** The device side *)

Lemma evolves_refl s : evolves hw s s.
Proof.
  split; [|tauto]. exists []. split; [reflexivity|]. split; [constructor|tauto].
Qed.

Lemma evolves_trans s1 s2 s3 :
  evolves hw s1 s2 -> evolves hw s2 s3 -> evolves hw s1 s3.
Proof.
  intros ((n1 & E1 & F1 & Q1) & K1 & T1) ((n2 & E2 & F2 & Q2) & K2 & T2).
  split; [|split].
  - exists (n2 ++ n1). split; [rewrite E2, E1, app_assoc; reflexivity|].
    split; [apply Forall_app; tauto|].
    intros Hq. rewrite (Q1 Hq), (Q2 (K1 Hq)). reflexivity.
  - tauto.
  - intros Hq. rewrite (T2 (K1 Hq)). apply T1, Hq.
Qed.

Lemma evolves_same s s' :
  pwm_writes s' = pwm_writes s -> is_initialized s' = is_initialized s ->
  estop_triggered s' = estop_triggered s -> evolves hw s s'.
Proof.
  intros Hw Hi He. split; [|split].
  - exists []. split; [exact Hw|]. split; [constructor|tauto].
  - unfold quiet. rewrite Hi. tauto.
  - intros _. exact He.
Qed.

Lemma evolves_pwm pin d s :
  pin ∈ all_pwm_pins -> evolves hw s (snd (pwm_result hw pin d s)).
Proof.
  intros Hpin. unfold pwm_result.
  destruct (GPIO_AVAILABLE hw) eqn:Hg; cbn; [|apply evolves_refl].
  destruct (is_initialized s) eqn:Hi; cbn; [|apply evolves_refl].
  destruct (tx_pwm_ok hw pin _); cbn; [|apply evolves_refl].
  split; [|split].
  - eexists [_]. split; [reflexivity|]. split.
    + constructor; [|constructor]. split; [exact Hpin|].
      cbn. apply py_clamp_bounds. lra.
    + unfold quiet. intros [H|H]; congruence.
  - unfold quiet. cbn. tauto.
  - reflexivity.
Qed.

Lemma evolves_pwm_each pins d s :
  Forall (fun pin => pin ∈ all_pwm_pins) pins ->
  evolves hw s (pwm_each hw pins d s).
Proof.
  intros Hpins. revert s. induction Hpins as [|pin pins Hpin _ IH]; intros s.
  - apply evolves_refl.
  - cbn. eapply evolves_trans; [apply evolves_pwm, Hpin|apply IH].
Qed.

Lemma all_pwm_pins_self : Forall (fun pin => pin ∈ all_pwm_pins) all_pwm_pins.
Proof. apply Forall_forall. auto. Qed.

Lemma evolves_stop_all s : evolves hw s (snd (stop_all hw s)).
Proof.
  rewrite stop_all_exact. cbn [snd].
  eapply evolves_trans; [apply (evolves_pwm_each all_pwm_pins 0 s),
                          all_pwm_pins_self|].
  apply evolves_same; reflexivity.
Qed.

Lemma evolves__emergency_shutdown s :
  evolves hw s (snd (_emergency_shutdown hw s)).
Proof.
  rewrite _emergency_shutdown_exact. cbn [snd].
  eapply evolves_trans; [apply (evolves_pwm_each all_pwm_pins 0 s),
                          all_pwm_pins_self|].
  apply evolves_same; reflexivity.
Qed.

Lemma evolves_check_estop r s : evolves hw s (snd (check_estop hw r s)).
Proof.
  destruct (estop_polled hw s) eqn:Hp.
  - rewrite (check_estop_polled r s Hp). destruct r as [lvl|e].
    + assert (Hnq : ~ quiet hw s).
      { unfold estop_polled in Hp.
        apply andb_true_iff in Hp as [Hp Hi].
        apply andb_true_iff in Hp as [_ Hg].
        unfold quiet. intros [H|H]; congruence. }
      assert (Hflag : forall b, evolves hw s (set_estop_triggered b s)).
      { intros b. split; [|split]; try tauto.
        exists []. split; [reflexivity|]. split; [constructor|tauto]. }
      destruct (Z.eqb lvl 0); cbn [snd]; [|apply Hflag].
      pose proof (evolves__emergency_shutdown (set_estop_triggered true s))
        as ((new & E & F & _) & _ & _).
      split; [|split]; try tauto.
      exists new. split; [exact E|]. split; [exact F|tauto].
    + apply evolves_refl.
  - rewrite (check_estop_not_polled r s Hp). apply evolves_refl.
Qed.

Lemma evolves_after c s : evolves hw s (after hw c s).
Proof.
  destruct c as [r|mode|v|kp ki sp|m v| |]; cbn [after].
  - apply evolves_check_estop.
  - apply evolves_same; unfold set_pump_mode, bind, get, modify;
      (destruct (negb _); cbn; [reflexivity|]); destruct (_ && _); reflexivity.
  - destruct (set_pump_speed_exact_cases v s) as [-> | [-> | [[_ ->] | ->]]];
      cbn [snd]; try apply evolves_refl.
    + eapply evolves_trans; [|apply evolves_pwm, pump_pin_in_all].
      apply evolves_same; reflexivity.
    + eapply evolves_trans; [|apply evolves_pwm, pump_pin_in_all].
      apply evolves_same; reflexivity.
  - apply evolves_same; unfold set_pi_parameters, bind, modify, raise, ret;
      (destruct kp as [kp|]; [destruct (Rltb kp 0)|]);
      (destruct ki as [ki|]; [destruct (Rltb ki 0)|]);
      (destruct sp as [sp|]; [destruct (Rltb sp 0)|]); reflexivity.
  - destruct (manual_motor_control_exact_cases m v s)
      as [-> | [(e & ->) | (pin & _ & _ & _ & Hpin & ->)]];
      cbn [snd]; try apply evolves_refl.
    eapply evolves_trans; [|apply evolves_pwm, (pin_map_pins m pin Hpin)].
    apply evolves_same; reflexivity.
  - apply evolves_refl.
  - apply evolves_stop_all.
Qed.

Lemma evolves_cleanup close s : evolves hw s (snd (cleanup hw close s)).
Proof.
  rewrite cleanup_exact. cbn [snd].
  eapply evolves_trans; [apply evolves_stop_all|].
  split; [|split].
  - exists []. split; [reflexivity|]. split; [constructor|tauto].
  - intros _. right. reflexivity.
  - reflexivity.
Qed.

Lemma evolves_run1 m s : evolves hw s (run1 hw m s).
Proof.
  destruct m as [c|close]; [apply evolves_after|apply evolves_cleanup].
Qed.

Lemma evolves_run ms s : evolves hw s (run hw ms s).
Proof.
  revert s. induction ms as [|m ms IH]; intros s; [apply evolves_refl|].
  cbn. eapply evolves_trans; [apply evolves_run1|apply IH].
Qed.

Lemma for_tx_pwm_zero_ok pins s :
  Forall (fun pin => pin ∈ all_pwm_pins) pins ->
  exists o new,
    for_ pins (fun pin => tx_pwm hw pin 0) s
    = (o, set_pwm_writes (new ++ pwm_writes s) s)
    /\ Forall write_ok new.
Proof.
  intros Hpins. revert s. induction Hpins as [|pin pins Hpin _ IH]; intros s.
  - exists (Return tt), []. split; [destruct s; reflexivity|constructor].
  - cbn [for_]. unfold bind. unfold tx_pwm at 1.
    destruct (tx_pwm_ok hw pin 0).
    + unfold modify at 1. cbv beta iota.
      destruct (IH (push_pwm_write (pin, 0) s)) as (o & new & -> & F).
      exists o, (new ++ [(pin, 0)]). split.
      * cbn. rewrite <- app_assoc. reflexivity.
      * apply Forall_app. split; [exact F|].
        constructor; [|constructor]. split; [exact Hpin|cbn; lra].
    + exists (Raise RuntimeError), [].
      split; [destruct s; reflexivity|constructor].
Qed.

Lemma init_writes_ok kp ki sp md es :
  Forall write_ok (pwm_writes (__init__ hw kp ki sp md es)).
Proof.
  unfold __init__, _initialize_gpio.
  pose proof (fun s => for_tx_pwm_zero_ok all_pwm_pins s all_pwm_pins_self)
    as Hloop.
  set (loop := for_ all_pwm_pins (fun pin => tx_pwm hw pin 0)) in *.
  clearbody loop.
  destruct (GPIO_AVAILABLE hw); cbn; [|constructor].
  unfold try_except, bind. destruct (gpiochip_open hw) as [c|]; cbn;
    [|constructor].
  match goal with |- context [loop ?s0] =>
    destruct (Hloop s0) as ([[]|e] & new & -> & F) end; cbn.
  - destruct es; [destruct (gpio_claim_input_ok hw)|]; cbn;
      rewrite app_nil_r; exact F.
  - rewrite app_nil_r; exact F.
Qed.

(** *** Ranges the object keeps *)

Lemma zeroed_in_range (ms : gmap string R) m v :
  ((fun _ : R => 0) <$> ms) !! m = Some v -> 0 <= v <= 100.
Proof.
  rewrite lookup_fmap. destruct (ms !! m); cbn; [|discriminate].
  intros [= <-]. lra.
Qed.

Lemma duty_in_range_attrs md s s' :
  max_pump_duty s' = max_pump_duty s -> pump_duty s' = pump_duty s ->
  duty_in_range md s -> duty_in_range md s'.
Proof. unfold duty_in_range. intros -> ->. tauto. Qed.

Lemma duty_in_range_zero md s s' :
  0 <= md -> max_pump_duty s' = max_pump_duty s -> pump_duty s' = 0 ->
  duty_in_range md s -> duty_in_range md s'.
Proof. unfold duty_in_range. intros Hmd -> ->. intros [-> _]. lra. Qed.

Lemma duty_in_range_run1 md m s :
  0 <= md -> duty_in_range md s -> duty_in_range md (run1 hw m s).
Proof.
  intros Hmd Hd.
  destruct m as [[r|mode|v|kp ki sp|mid v| |]|close]; cbn [run1 after].
  - destruct (estop_polled hw s) eqn:Hp.
    + rewrite (check_estop_polled r s Hp). destruct r as [lvl|e]; [|exact Hd].
      destruct (Z.eqb lvl 0); cbn [snd]; [|exact Hd].
      rewrite _emergency_shutdown_exact.
      destruct (pwm_each_attrs all_pwm_pins 0 (set_estop_triggered true s))
        as (ws & ->).
      apply (duty_in_range_zero md s); [exact Hmd|reflexivity..|exact Hd].
    + rewrite (check_estop_not_polled r s Hp). exact Hd.
  - unfold set_pump_mode, bind, get, modify.
    destruct (negb _); cbn; [exact Hd|]. destruct (_ && _); exact Hd.
  - destruct Hd as [Hmax Hr].
    destruct (set_pump_speed_exact_cases v s) as [-> | [-> | [[Hv ->] | ->]]];
      cbn [snd]; try (split; assumption);
      match goal with |- context [pwm_result hw ?p ?d ?s'] =>
        destruct (pwm_result_attrs p d s') as (ws & ->) end;
      (split; [exact Hmax|]); cbn.
    + rewrite Hmax. unfold py_min, Rltb. case_bool_decide; lra.
    + unfold pi_step_duty. rewrite Hmax. apply py_clamp_bounds, Hmd.
  - unfold set_pi_parameters, bind, modify, raise, ret.
    destruct kp as [kp|]; [destruct (Rltb kp 0)|];
      (destruct ki as [ki|]; [destruct (Rltb ki 0)|]);
      (destruct sp as [sp|]; [destruct (Rltb sp 0)|]); exact Hd.
  - destruct (manual_motor_control_exact_cases mid v s)
      as [-> | [(e & ->) | (pin & _ & _ & _ & _ & ->)]]; cbn [snd];
      try exact Hd.
    match goal with |- context [pwm_result hw ?p ?d ?s'] =>
      destruct (pwm_result_attrs p d s') as (ws & ->) end.
    exact Hd.
  - exact Hd.
  - rewrite stop_all_exact.
    destruct (pwm_each_attrs all_pwm_pins 0 s) as (ws & ->).
    apply (duty_in_range_zero md s); [exact Hmd|reflexivity..|exact Hd].
  - rewrite cleanup_exact, stop_all_exact.
    destruct (pwm_each_attrs all_pwm_pins 0 s) as (ws & ->).
    apply (duty_in_range_zero md s); [exact Hmd|reflexivity..|exact Hd].
Qed.

Lemma motors_in_range_run1 m s :
  motors_in_range s -> motors_in_range (run1 hw m s).
Proof.
  intros Hm.
  assert (Hzero : forall s0 : HardwareController,
             motors_in_range
               (set_motor_states ((fun _ => 0) <$> motor_states s) s0)).
  { intros s0 k v. cbn. apply zeroed_in_range. }
  destruct m as [[r|mode|v|kp ki sp|mid v| |]|close]; cbn [run1 after].
  - destruct (estop_polled hw s) eqn:Hp.
    + rewrite (check_estop_polled r s Hp). destruct r as [lvl|e]; [|exact Hm].
      destruct (Z.eqb lvl 0); cbn [snd]; [|exact Hm].
      rewrite _emergency_shutdown_exact.
      destruct (pwm_each_attrs all_pwm_pins 0 (set_estop_triggered true s))
        as (ws & ->).
      intros k v. cbn. apply zeroed_in_range.
    + rewrite (check_estop_not_polled r s Hp). exact Hm.
  - unfold set_pump_mode, bind, get, modify.
    destruct (negb _); cbn; [exact Hm|]. destruct (_ && _); exact Hm.
  - destruct (set_pump_speed_exact_cases v s) as [-> | [-> | [[Hv ->] | ->]]];
      cbn [snd]; try exact Hm;
      match goal with |- context [pwm_result hw ?p ?d ?s'] =>
        destruct (pwm_result_attrs p d s') as (ws & ->) end; exact Hm.
  - unfold set_pi_parameters, bind, modify, raise, ret.
    destruct kp as [kp|]; [destruct (Rltb kp 0)|];
      (destruct ki as [ki|]; [destruct (Rltb ki 0)|]);
      (destruct sp as [sp|]; [destruct (Rltb sp 0)|]); exact Hm.
  - destruct (manual_motor_control_exact_cases mid v s)
      as [-> | [(e & ->) | (pin & _ & _ & Hv & _ & ->)]]; cbn [snd];
      try exact Hm.
    match goal with |- context [pwm_result hw ?p ?d ?s'] =>
      destruct (pwm_result_attrs p d s') as (ws & ->) end.
    intros m' v'. cbn.
    rewrite lookup_insert_Some. intros [[_ <-] | [_ H]]; [exact Hv|].
    apply (Hm m' v' H).
  - exact Hm.
  - rewrite stop_all_exact.
    destruct (pwm_each_attrs all_pwm_pins 0 s) as (ws & ->).
    intros k v. cbn. apply zeroed_in_range.
  - rewrite cleanup_exact, stop_all_exact.
    destruct (pwm_each_attrs all_pwm_pins 0 s) as (ws & ->).
    intros k v. cbn. apply zeroed_in_range.
Qed.

Lemma init_attrs kp ki sp md es :
  exists c i ws,
    __init__ hw kp ki sp md es
    = {| pi_kp := kp; pi_ki := ki; pi_setpoint := sp;
         max_pump_duty := md; estop_enabled := es;
         pi_integral := 0; pi_last_error := 0;
         pump_mode := "manual"; pump_duty := 0;
         motor_states :=
           <["agitator" := 0]> (<["air" := 0]> (<["feed" := 0]> ∅));
         chip := c; is_initialized := i; estop_triggered := false;
         pwm_writes := ws |}.
Proof.
  unfold __init__.
  match goal with |- context [_initialize_gpio hw ?s0] =>
    destruct (_initialize_gpio_frame hw s0) as (b & c & i & ws & ->) end.
  eexists _, _, _. reflexivity.
Qed.

Lemma duty_in_range_init kp ki sp md es :
  0 <= md -> duty_in_range md (__init__ hw kp ki sp md es).
Proof.
  intros Hmd. destruct (init_attrs kp ki sp md es) as (c & i & ws & ->).
  split; [reflexivity|cbn; lra].
Qed.

Lemma motors_in_range_init kp ki sp md es :
  motors_in_range (__init__ hw kp ki sp md es).
Proof.
  destruct (init_attrs kp ki sp md es) as (c & i & ws & ->).
  intros m v. cbn. rewrite !lookup_insert_Some, lookup_empty.
  intros [[_ <-] | [_ [[_ <-] | [_ [[_ <-] | [_ H]]]]]];
    try discriminate H; lra.
Qed.

Lemma run_cons m ms s : run hw (m :: ms) s = run hw ms (run1 hw m s).
Proof. reflexivity. Qed.

(** X1: every PWM write the object ever sends to [lgpio.tx_pwm], from the
    constructor on and whatever methods are called, goes to one of the four
    PWM pins with a duty in [0, 100]. *)
Theorem device_writes_in_range kp ki sp md es ms :
  Forall write_ok (pwm_writes (run hw ms (__init__ hw kp ki sp md es))).
Proof.
  destruct (evolves_run ms (__init__ hw kp ki sp md es))
    as ((new & -> & Hnew & _) & _).
  apply Forall_app. split; [exact Hnew|apply init_writes_ok].
Qed.

(** X2: when [max_pump_duty] is not negative, the pump duty the object
    holds is in [0, max_pump_duty] after any run of method calls, and
    [max_pump_duty] itself never changes. *)
Theorem pump_duty_in_range kp ki sp md es ms :
  0 <= md ->
  let s := run hw ms (__init__ hw kp ki sp md es) in
  max_pump_duty s = md /\ 0 <= pump_duty s <= md.
Proof.
  intros Hmd s. subst s.
  generalize (duty_in_range_init kp ki sp md es Hmd).
  generalize (__init__ hw kp ki sp md es).
  induction ms as [|m ms IH]; intros s Hd; [exact Hd|].
  rewrite run_cons. apply IH, duty_in_range_run1; assumption.
Qed.

(** X3: every motor value the object holds is in [0, 100] after any run of
    method calls. *)
Theorem motor_duties_in_range kp ki sp md es ms m v :
  motor_states (run hw ms (__init__ hw kp ki sp md es)) !! m = Some v ->
  0 <= v <= 100.
Proof.
  revert m v. change (motors_in_range (run hw ms (__init__ hw kp ki sp md es))).
  generalize (motors_in_range_init kp ki sp md es).
  generalize (__init__ hw kp ki sp md es).
  induction ms as [|m ms IH]; intros s Hm; [exact Hm|].
  rewrite run_cons. apply IH, motors_in_range_run1, Hm.
Qed.

(** X4: in AUTO mode with the interlock not triggered, [set_pump_speed(v)]
    runs one PI step: the error is [setpoint - v], the integral is the old
    one plus the error clamped to [-50, 50], and the pump duty is
    [kp * error + ki * integral] clamped to [0, max_pump_duty]; gains,
    setpoint and mode stay. *)
Theorem auto_set_pump_speed v s :
  estop_triggered s = false -> pump_mode s = "auto" ->
  exists s',
    set_pump_speed hw v s = (Return tt, s')
    /\ pi_last_error s' = pi_setpoint s - v
    /\ pi_integral s' = Rmax (-50) (Rmin 50 (pi_integral s + (pi_setpoint s - v)))
    /\ pump_duty s'
       = Rmax 0 (Rmin (max_pump_duty s)
                   (pi_kp s * (pi_setpoint s - v) + pi_ki s * pi_integral s'))
    /\ pi_kp s' = pi_kp s /\ pi_ki s' = pi_ki s
    /\ pi_setpoint s' = pi_setpoint s /\ pump_mode s' = "auto".
Proof.
  intros He Hm.
  rewrite set_pump_speed_auto_exact by (rewrite ?Hm; done).
  match goal with |- context [pwm_result hw ?p ?d ?s'] =>
    destruct (pwm_result_attrs p d s') as (ws & ->) end.
  eexists. split; [reflexivity|]. cbn.
  unfold pi_step_duty, pi_step_integral.
  rewrite !py_max_Rmax, !py_min_Rmin. repeat split; try reflexivity.
  exact Hm.
Qed.

(** X5: when every supplied value is non-negative, [set_pi_parameters]
    returns, stores each supplied value and leaves the others; the integral
    is reset to 0 exactly when a setpoint is supplied (a changed one or
    not), and the last error is kept. *)
Theorem set_pi_parameters_accepts kp ki sp s :
  (forall x, kp = Some x -> 0 <= x) ->
  (forall x, ki = Some x -> 0 <= x) ->
  (forall x, sp = Some x -> 0 <= x) ->
  exists s',
    set_pi_parameters kp ki sp s = (Return tt, s')
    /\ pi_kp s' = default (pi_kp s) kp
    /\ pi_ki s' = default (pi_ki s) ki
    /\ pi_setpoint s' = default (pi_setpoint s) sp
    /\ pi_integral s' = match sp with Some _ => 0 | None => pi_integral s end
    /\ pi_last_error s' = pi_last_error s
    /\ pump_duty s' = pump_duty s.
Proof.
  intros Hkp Hki Hsp.
  unfold set_pi_parameters, bind, modify, raise, ret.
  destruct kp as [kp|];
    [rewrite (proj2 (Rltb_false kp 0)) by (specialize (Hkp kp eq_refl); lra)|];
    (destruct ki as [ki|];
     [rewrite (proj2 (Rltb_false ki 0)) by (specialize (Hki ki eq_refl); lra)|]);
    (destruct sp as [sp|];
     [rewrite (proj2 (Rltb_false sp 0)) by (specialize (Hsp sp eq_refl); lra)|]);
    eexists; (split; [reflexivity|]); cbn; repeat split.
Qed.

Lemma check_estop_release lvl s :
  estop_polled hw s = true -> lvl <> 0%Z ->
  check_estop hw (Return lvl) s = (Return false, set_estop_triggered false s).
Proof.
  intros Hp Hl. rewrite (check_estop_polled _ s Hp).
  apply Z.eqb_neq in Hl. rewrite Hl. reflexivity.
Qed.

(** X6: the E-Stop flag is not latched. After a poll that read 0, a poll
    that reads another level returns [False] and clears the flag without
    any operator action; the pump duty and the integral stay at the 0 the
    shutdown left, and a MANUAL [set_pump_speed(d)] is accepted again. *)
Theorem estop_release_rearms lvl d s :
  estop_polled hw s = true -> lvl <> 0%Z ->
  pump_mode s = "manual" -> 0 <= d <= 100 ->
  let s1 := snd (check_estop hw (Return 0%Z) s) in
  let s2 := snd (check_estop hw (Return lvl) s1) in
  estop_triggered s1 = true
  /\ check_estop hw (Return lvl) s1 = (Return false, s2)
  /\ estop_triggered s2 = false
  /\ pump_duty s2 = 0 /\ pi_integral s2 = 0
  /\ exists s3,
      set_pump_speed hw d s2 = (Return tt, s3)
      /\ pump_duty s3 = Rmin d (max_pump_duty s).
Proof.
  intros Hp Hl Hm Hd s1 s2. subst s2 s1.
  rewrite (check_estop_polled _ s Hp). cbn [Z.eqb snd].
  rewrite _emergency_shutdown_exact. cbn [snd].
  destruct (pwm_each_attrs all_pwm_pins 0 (set_estop_triggered true s))
    as (ws & ->).
  rewrite check_estop_release; [|exact Hp|exact Hl]. cbn [snd].
  split; [reflexivity|]. split; [reflexivity|]. split; [reflexivity|].
  split; [reflexivity|]. split; [reflexivity|].
  rewrite set_pump_speed_manual_exact; [|reflexivity|exact Hm|exact Hd].
  match goal with |- context [pwm_result hw ?p ?x ?s'] =>
    destruct (pwm_result_attrs p x s') as (ws' & ->) end.
  eexists. split; [reflexivity|]. cbn. apply py_min_Rmin.
Qed.

(** X7: a poll that cannot read the pin (E-Stop disabled, no [lgpio], GPIO
    not initialised, or [gpio_read] raising) returns [False] and leaves the
    object as it is, a flag already set included. *)
Theorem check_estop_inert r s :
  estop_polled hw s = false \/ (exists e, r = Raise e) ->
  check_estop hw r s = (Return false, s).
Proof.
  intros [Hp | (e & ->)]; [apply check_estop_not_polled, Hp|].
  destruct (estop_polled hw s) eqn:Hp.
  - rewrite (check_estop_polled _ s Hp). reflexivity.
  - apply check_estop_not_polled, Hp.
Qed.

(** X8: once the device is out of reach (no [lgpio], or GPIO not
    initialised: a failed set-up, or after [cleanup]), no run of method
    calls writes to it, changes the E-Stop flag or brings it back. *)
Theorem quiet_stays_quiet ms s :
  quiet hw s ->
  pwm_writes (run hw ms s) = pwm_writes s
  /\ estop_triggered (run hw ms s) = estop_triggered s
  /\ quiet hw (run hw ms s).
Proof.
  intros Hq. destruct (evolves_run ms s) as ((new & E & _ & Hnil) & K & T).
  rewrite E, (Hnil Hq). auto.
Qed.

Lemma pwm_each_quiet pins d s : quiet hw s -> pwm_each hw pins d s = s.
Proof.
  intros Hq. induction pins as [|pin pins IH]; [reflexivity|].
  cbn. unfold pwm_result at 2.
  destruct Hq as [-> | Hi]; cbn; [exact IH|].
  destruct (negb (GPIO_AVAILABLE hw)); cbn; [exact IH|].
  rewrite Hi. cbn. exact IH.
Qed.

Lemma fmap_zero_twice (ms : gmap string R) :
  (fun _ : R => 0) <$> ((fun _ : R => 0) <$> ms) = (fun _ : R => 0) <$> ms.
Proof. rewrite <- map_fmap_compose. reflexivity. Qed.

Lemma cleanup_state close s :
  exists ws,
    cleanup hw close s
    = (Return tt,
       set_chip None
         (set_is_initialized false
            (set_motor_states ((fun _ => 0) <$> motor_states s)
               (set_pump_duty 0 (set_pwm_writes ws s))))).
Proof.
  rewrite cleanup_exact, stop_all_exact. cbn [snd].
  destruct (pwm_each_attrs all_pwm_pins 0 s) as (ws & ->).
  exists ws. reflexivity.
Qed.

Lemma cleanup_quiet close s :
  is_initialized s = false -> chip s = None -> pump_duty s = 0 ->
  (fun _ : R => 0) <$> motor_states s = motor_states s ->
  cleanup hw close s = (Return tt, s).
Proof.
  intros Hi Hc Hd Hm. rewrite cleanup_exact, stop_all_exact. cbn [snd].
  rewrite pwm_each_quiet by (right; exact Hi). rewrite Hm.
  destruct s; cbn in *; subst; reflexivity.
Qed.

(** X9: [cleanup] never raises, even when [gpiochip_close] does; it leaves
    the pump and the motors at 0, the GPIO marked uninitialised and the chip
    handle dropped, and keeps the mode and the PI state. A second [cleanup]
    and a later [__del__] change nothing at all. *)
Theorem cleanup_idempotent close1 close2 s :
  let s1 := snd (cleanup hw close1 s) in
  cleanup hw close1 s = (Return tt, s1)
  /\ is_initialized s1 = false /\ chip s1 = None
  /\ pump_duty s1 = 0
  /\ (forall m v, motor_states s1 !! m = Some v -> v = 0)
  /\ pump_mode s1 = pump_mode s /\ pi_integral s1 = pi_integral s
  /\ cleanup hw close2 s1 = (Return tt, s1)
  /\ __del__ hw close2 s1 = (Return tt, s1).
Proof.
  intros s1. subst s1.
  destruct (cleanup_state close1 s) as (ws & ->). cbn [snd].
  split; [reflexivity|]. split; [reflexivity|]. split; [reflexivity|].
  split; [reflexivity|]. split.
  { intros m v. cbn. rewrite lookup_fmap.
    destruct (motor_states s !! m); cbn; congruence. }
  split; [reflexivity|]. split; [reflexivity|]. split.
  - apply cleanup_quiet; try reflexivity. cbn. apply fmap_zero_twice.
  - reflexivity.
Qed.

(** X10: the constructor always yields an object: MANUAL mode, pump and
    motors at 0, PI state at 0, E-Stop flag clear. Without [lgpio] it is
    marked initialised and nothing is written; with [lgpio] it is marked
    initialised exactly when the chip opens, the four zero writes are
    accepted and the E-Stop input (if enabled) is claimed, and then the
    device has received exactly those four zero writes. *)
Theorem constructor_state kp ki sp md es :
  let s := __init__ hw kp ki sp md es in
  is_initialized s = init_ok hw es
  /\ pump_mode s = "manual" /\ pump_duty s = 0
  /\ pi_integral s = 0 /\ pi_last_error s = 0
  /\ estop_triggered s = false
  /\ motor_states s
     = <["agitator" := 0]> (<["air" := 0]> (<["feed" := 0]> ∅))
  /\ (GPIO_AVAILABLE hw = false -> pwm_writes s = [])
  /\ (GPIO_AVAILABLE hw = true -> init_ok hw es = true ->
        pwm_writes s = zero_writes).
Proof.
  intros s. subst s.
  assert (Hi : is_initialized (__init__ hw kp ki sp md es) = init_ok hw es).
  { unfold __init__, _initialize_gpio, init_ok, try_except, bind, tx_pwm.
    cbn [for_ all_pwm_pins forallb]. unfold bind, tx_pwm.
    destruct (GPIO_AVAILABLE hw); cbn; [|reflexivity].
    destruct (gpiochip_open hw); cbn; [|reflexivity].
    destruct (tx_pwm_ok hw PIN_PERISTALTIC 0); cbn; [|reflexivity].
    destruct (tx_pwm_ok hw PIN_AGITATOR 0); cbn; [|reflexivity].
    destruct (tx_pwm_ok hw PIN_AIR_PUMP 0); cbn; [|reflexivity].
    destruct (tx_pwm_ok hw PIN_FEED_PUMP 0); cbn; [|reflexivity].
    destruct es; cbn; [|reflexivity].
    destruct (gpio_claim_input_ok hw); reflexivity. }
  assert (Hw : (GPIO_AVAILABLE hw = false ->
                pwm_writes (__init__ hw kp ki sp md es) = [])
               /\ (GPIO_AVAILABLE hw = true -> init_ok hw es = true ->
                   pwm_writes (__init__ hw kp ki sp md es) = zero_writes)).
  { unfold __init__, _initialize_gpio, init_ok, try_except, bind, tx_pwm.
    cbn [for_ all_pwm_pins forallb]. unfold bind, tx_pwm.
    destruct (GPIO_AVAILABLE hw); cbn; split; try discriminate;
      try reflexivity.
    intros _.
    destruct (gpiochip_open hw); cbn; [|discriminate].
    destruct (tx_pwm_ok hw PIN_PERISTALTIC 0); cbn; [|discriminate].
    destruct (tx_pwm_ok hw PIN_AGITATOR 0); cbn; [|discriminate].
    destruct (tx_pwm_ok hw PIN_AIR_PUMP 0); cbn; [|discriminate].
    destruct (tx_pwm_ok hw PIN_FEED_PUMP 0); cbn; [|discriminate].
    destruct es; cbn; [|reflexivity].
    destruct (gpio_claim_input_ok hw); [reflexivity|discriminate]. }
  split; [exact Hi|]. destruct Hw as [Hw0 Hw1].
  destruct (init_attrs kp ki sp md es) as (c & i & ws & Hattrs).
  rewrite Hattrs in *. cbn in *. repeat split; assumption.
Qed.

Lemma clamp_zero : py_max 0 (py_min 100 0) = 0.
Proof. unfold py_max, py_min, Rltb. repeat case_bool_decide; lra. Qed.

Lemma pwm_each_zero_writes pins s :
  GPIO_AVAILABLE hw = true -> is_initialized s = true ->
  (forall pin, pin ∈ pins -> tx_pwm_ok hw pin 0 = true) ->
  pwm_each hw pins 0 s
  = set_pwm_writes (rev (map (fun pin => (pin, 0)) pins) ++ pwm_writes s) s.
Proof.
  intros Hg. revert s. induction pins as [|pin pins IH]; intros s Hi Hok.
  - destruct s; reflexivity.
  - cbn [pwm_each fold_left]. unfold pwm_result at 2.
    rewrite Hg, Hi, clamp_zero, (Hok pin) by (left; reflexivity).
    cbn [negb snd]. fold (pwm_each hw pins 0 (push_pwm_write (pin, 0) s)).
    rewrite IH; [|exact Hi|intros p Hp; apply Hok; right; exact Hp].
    cbn. rewrite <- app_assoc. reflexivity.
Qed.

Lemma pwm_each_zero_ok s :
  GPIO_AVAILABLE hw = true -> is_initialized s = true ->
  (forall pin, pin ∈ all_pwm_pins -> tx_pwm_ok hw pin 0 = true) ->
  pwm_each hw all_pwm_pins 0 s
  = set_pwm_writes (zero_writes ++ pwm_writes s) s.
Proof. intros Hg Hi Hok. apply pwm_each_zero_writes; assumption. Qed.

(** X11: on a board that is initialised and accepts a zero duty on the
    four PWM pins, the emergency shutdown and [stop_all] each send exactly
    one zero write to every pin (pump, agitator, air, feed, in that
    order). *)
Theorem shutdown_commands_every_pin s :
  GPIO_AVAILABLE hw = true -> is_initialized s = true ->
  (forall pin, pin ∈ all_pwm_pins -> tx_pwm_ok hw pin 0 = true) ->
  pwm_writes (snd (_emergency_shutdown hw s)) = zero_writes ++ pwm_writes s
  /\ pwm_writes (snd (stop_all hw s)) = zero_writes ++ pwm_writes s.
Proof.
  intros Hg Hi Hok.
  rewrite _emergency_shutdown_exact, stop_all_exact.
  rewrite (pwm_each_zero_ok s Hg Hi Hok). split; reflexivity.
Qed.

(** X12: [stop_all] zeroes the duties but keeps the mode, the E-Stop flag
    and the PI state, so it does not hold the pump in AUTO: the next
    [set_pump_speed(v)] gives the same duty, integral and last error as if
    [stop_all] had not been called. *)
Theorem stop_all_does_not_hold_auto v s :
  estop_triggered s = false -> pump_mode s = "auto" ->
  let s1 := snd (stop_all hw s) in
  pump_duty s1 = 0
  /\ estop_triggered s1 = false /\ pump_mode s1 = "auto"
  /\ pi_integral s1 = pi_integral s
  /\ pump_duty (snd (set_pump_speed hw v s1))
     = pump_duty (snd (set_pump_speed hw v s))
  /\ pi_integral (snd (set_pump_speed hw v s1))
     = pi_integral (snd (set_pump_speed hw v s))
  /\ pi_last_error (snd (set_pump_speed hw v s1))
     = pi_last_error (snd (set_pump_speed hw v s)).
Proof.
  intros He Hm s1. subst s1. rewrite stop_all_exact. cbn [snd].
  destruct (pwm_each_attrs all_pwm_pins 0 s) as (ws & ->).
  rewrite !set_pump_speed_auto_exact by (cbn; rewrite ?He, ?Hm; done).
  repeat match goal with |- context [pwm_result hw ?p ?d ?s'] =>
    destruct (pwm_result_attrs p d s') as (? & ->) end.
  cbn. repeat split; assumption.
Qed.

(** X13: one tick of the control loop never raises. When the poll reads
    the E-Stop pin as 0, the tick ends with the flag set, the pump and every
    motor at 0 and the integral at 0, whatever the shared mode and bubble
    count: in AUTO the PI step of that tick is vetoed. *)
Theorem control_tick_estop_active :
  (forall mode count r s,
      exists s', control_tick hw mode count r s = (Return tt, s'))
  /\ (forall mode count s,
         estop_polled hw s = true ->
         exists s',
           control_tick hw mode count (Return 0%Z) s = (Return tt, s')
           /\ estop_triggered s' = true
           /\ pump_duty s' = 0 /\ pi_integral s' = 0
           /\ (forall m v, motor_states s' !! m = Some v -> v = 0)
           /\ pump_mode s' = pump_mode s).
Proof.
  split.
  - intros mode count r s. unfold control_tick, try_except, bind.
    destruct (check_estop hw r s) as [[b|e] s1]; [|eexists; reflexivity].
    destruct (String.eqb mode "auto"); [|eexists; reflexivity].
    destruct (set_pump_speed hw (IZR count) s1) as [[[]|e] s2];
      eexists; reflexivity.
  - intros mode count s Hp. unfold control_tick, try_except, bind.
    rewrite (check_estop_polled _ s Hp). cbn [Z.eqb].
    rewrite _emergency_shutdown_exact. cbn [snd].
    destruct (pwm_each_attrs all_pwm_pins 0 (set_estop_triggered true s))
      as (ws & ->).
    assert (Hend : forall s2 : HardwareController,
      s2 = set_pi_integral 0
             (set_motor_states
                ((fun _ => 0) <$>
                 motor_states (set_pwm_writes ws (set_estop_triggered true s)))
                (set_pump_duty 0
                   (set_pwm_writes ws (set_estop_triggered true s)))) ->
      estop_triggered s2 = true
      /\ pump_duty s2 = 0 /\ pi_integral s2 = 0
      /\ (forall m v, motor_states s2 !! m = Some v -> v = 0)
      /\ pump_mode s2 = pump_mode s).
    { intros s2 ->. cbn. repeat split.
      intros m v. rewrite lookup_fmap.
      destruct (motor_states s !! m); cbn; congruence. }
    destruct (String.eqb mode "auto").
    + rewrite set_pump_speed_estop by reflexivity.
      eexists. split; [reflexivity|]. apply Hend. reflexivity.
    + eexists. split; [reflexivity|]. apply Hend. reflexivity.
Qed.

End Exact.

(** *** The theorems at concrete objects *)

Lemma pump_duty_in_range_witness :
  0 <= 80
  /\ (let s := run raspberry_pi demo_run (default_controller raspberry_pi) in
      max_pump_duty s = 80 /\ 0 <= pump_duty s <= 80).
Proof.
  assert (H : 0 <= 80) by lra. split; [exact H|].
  apply (pump_duty_in_range raspberry_pi 0.5 0.05 120 80 true demo_run H).
Defined.

Lemma motor_duties_in_range_witness :
  motor_states
    (run simulation [Public (Call_set_pump_mode "auto")]
       (default_controller simulation)) !! "air" = Some 0
  /\ 0 <= 0 <= 100.
Proof.
  assert (H : motor_states
                (run simulation [Public (Call_set_pump_mode "auto")]
                   (__init__ simulation 0.5 0.05 120 80 true)) !! "air"
              = Some 0) by reflexivity.
  split; [exact H|].
  apply (motor_duties_in_range simulation 0.5 0.05 120 80 true
           [Public (Call_set_pump_mode "auto")] "air" 0 H).
Defined.

Lemma auto_set_pump_speed_witness :
  let s := snd (set_pump_mode "auto" (default_controller simulation)) in
  estop_triggered s = false /\ pump_mode s = "auto"
  /\ exists s',
      set_pump_speed simulation 100 s = (Return tt, s')
      /\ pi_last_error s' = pi_setpoint s - 100.
Proof.
  intros s.
  assert (He : estop_triggered s = false) by reflexivity.
  assert (Hm : pump_mode s = "auto") by reflexivity.
  split; [exact He|]. split; [exact Hm|].
  destruct (auto_set_pump_speed simulation 100 s He Hm) as (s' & H1 & H2 & _).
  exists s'. split; assumption.
Defined.

Lemma set_pi_parameters_accepts_witness :
  exists s',
    set_pi_parameters (Some 1) None (Some 100) (default_controller simulation)
    = (Return tt, s')
    /\ pi_kp s' = 1 /\ pi_setpoint s' = 100 /\ pi_integral s' = 0.
Proof.
  destruct (set_pi_parameters_accepts (Some 1) None (Some 100)
              (default_controller simulation))
    as (s' & H1 & H2 & _ & H4 & H5 & _).
  - intros x [= <-]. lra.
  - intros x H. discriminate H.
  - intros x [= <-]. lra.
  - exists s'. repeat split; assumption.
Defined.

Lemma estop_release_rearms_witness :
  let s := default_controller raspberry_pi in
  estop_polled raspberry_pi s = true /\ pump_mode s = "manual"
  /\ estop_triggered
       (snd (check_estop raspberry_pi (Return 1%Z)
               (snd (check_estop raspberry_pi (Return 0%Z) s)))) = false.
Proof.
  intros s.
  assert (Hp : estop_polled raspberry_pi s = true) by reflexivity.
  assert (Hm : pump_mode s = "manual") by reflexivity.
  split; [exact Hp|]. split; [exact Hm|].
  assert (Hl : 1%Z <> 0%Z) by discriminate.
  assert (Hd : 0 <= 30 <= 100) by lra.
  destruct (estop_release_rearms raspberry_pi 1 30 s Hp Hl Hm Hd)
    as (_ & _ & H & _).
  exact H.
Defined.

Lemma check_estop_inert_witness :
  estop_polled simulation (default_controller simulation) = false
  /\ check_estop simulation (Return 0%Z) (default_controller simulation)
     = (Return false, default_controller simulation).
Proof.
  assert (Hp : estop_polled simulation (default_controller simulation) = false)
    by reflexivity.
  split; [exact Hp|].
  apply (check_estop_inert simulation). left. exact Hp.
Defined.

Lemma quiet_stays_quiet_witness :
  let s := default_controller faulty_board in
  quiet faulty_board s
  /\ pwm_writes (run faulty_board demo_run s) = pwm_writes s.
Proof.
  intros s.
  assert (Hq : quiet faulty_board s) by (right; reflexivity).
  split; [exact Hq|].
  apply (quiet_stays_quiet faulty_board demo_run s Hq).
Defined.

Lemma cleanup_idempotent_witness :
  let s1 := snd (cleanup raspberry_pi (Raise RuntimeError)
                   (default_controller raspberry_pi)) in
  is_initialized s1 = false
  /\ cleanup raspberry_pi (Return tt) s1 = (Return tt, s1).
Proof.
  intros s1.
  destruct (cleanup_idempotent raspberry_pi (Raise RuntimeError) (Return tt)
              (default_controller raspberry_pi))
    as (_ & H1 & _ & _ & _ & _ & _ & H2 & _).
  split; assumption.
Defined.

Lemma constructor_state_witness :
  GPIO_AVAILABLE raspberry_pi = true /\ init_ok raspberry_pi true = true
  /\ pwm_writes (default_controller raspberry_pi) = zero_writes
  /\ is_initialized (default_controller faulty_board) = false.
Proof.
  split; [reflexivity|]. split; [reflexivity|].
  destruct (constructor_state raspberry_pi 0.5 0.05 120 80 true)
    as (_ & _ & _ & _ & _ & _ & _ & _ & Hw).
  destruct (constructor_state faulty_board 0.5 0.05 120 80 true) as (Hi & _).
  split; [apply Hw; reflexivity|exact Hi].
Defined.

Lemma shutdown_commands_every_pin_witness :
  let s := default_controller raspberry_pi in
  GPIO_AVAILABLE raspberry_pi = true /\ is_initialized s = true
  /\ pwm_writes (snd (_emergency_shutdown raspberry_pi s))
     = zero_writes ++ pwm_writes s.
Proof.
  intros s.
  assert (Hg : GPIO_AVAILABLE raspberry_pi = true) by reflexivity.
  assert (Hi : is_initialized s = true) by reflexivity.
  split; [exact Hg|]. split; [exact Hi|].
  destruct (shutdown_commands_every_pin raspberry_pi s Hg Hi
              (fun pin _ => eq_refl)) as [H _].
  exact H.
Defined.

Lemma stop_all_does_not_hold_auto_witness :
  let s := snd (set_pump_mode "auto" (default_controller raspberry_pi)) in
  estop_triggered s = false /\ pump_mode s = "auto"
  /\ pump_duty (snd (set_pump_speed raspberry_pi 100
                       (snd (stop_all raspberry_pi s))))
     = pump_duty (snd (set_pump_speed raspberry_pi 100 s)).
Proof.
  intros s.
  assert (He : estop_triggered s = false) by reflexivity.
  assert (Hm : pump_mode s = "auto") by reflexivity.
  split; [exact He|]. split; [exact Hm|].
  destruct (stop_all_does_not_hold_auto raspberry_pi 100 s He Hm)
    as (_ & _ & _ & _ & H & _).
  exact H.
Defined.

Lemma control_tick_estop_active_witness :
  let s := default_controller raspberry_pi in
  estop_polled raspberry_pi s = true
  /\ exists s',
      control_tick raspberry_pi "auto" 100 (Return 0%Z) s = (Return tt, s')
      /\ estop_triggered s' = true /\ pump_duty s' = 0.
Proof.
  intros s.
  assert (Hp : estop_polled raspberry_pi s = true) by reflexivity.
  split; [exact Hp|].
  destruct (control_tick_estop_active raspberry_pi) as [_ Htick].
  destruct (Htick "auto" 100%Z s Hp) as (s' & H1 & H2 & H3 & _).
  exists s'. repeat split; assumption.
Defined.

End ControllerMore.

(** ** More about the vision metrics *)

Module VisionMore.
Import Vision Pipeline VisionFacts.

Lemma accepted_spec self cnt :
  accepted self cnt = true
  <-> min_bubble_area self <= contourArea cnt
      /\ 0 < arcLength cnt
      /\ circularity_threshold self
         <= 4 * PI * contourArea cnt / (arcLength cnt * arcLength cnt).
Proof.
  unfold accepted. rewrite !andb_true_iff, !negb_true_iff.
  rewrite !Rltb_false, Rleb_false. lra.
Qed.

Lemma analyze_loop_filter self contours diameters areas :
  analyze_loop self contours diameters areas
  = (diameters
       ++ map (fun cnt => equivalent_diameter (contourArea cnt))
            (List.filter (accepted self) contours),
     areas ++ map contourArea (List.filter (accepted self) contours)).
Proof.
  revert diameters areas.
  induction contours as [|cnt rest IH]; intros diameters areas.
  - cbn. rewrite !app_nil_r. reflexivity.
  - cbn [analyze_loop List.filter]. destruct (accepted self cnt) eqn:Hacc.
    + unfold accepted in Hacc.
      apply andb_true_iff in Hacc as [Hacc H3].
      apply andb_true_iff in Hacc as [H1 H2].
      apply negb_true_iff in H1, H2, H3. rewrite H1, H2, H3.
      rewrite IH. cbn [map]. rewrite <- !app_assoc. reflexivity.
    + unfold accepted in Hacc.
      destruct (Rltb (contourArea cnt) (min_bubble_area self)); [apply IH|].
      destruct (Rleb (arcLength cnt) 0); [apply IH|].
      destruct (Rltb _ (circularity_threshold self)); [apply IH|].
      discriminate Hacc.
Qed.

(** X14: [_analyze_contours] is a filter: it keeps, in order, exactly the
    contours whose area is at least [min_bubble_area], whose perimeter is
    positive and whose circularity [4 pi area / perimeter^2] is at least
    [circularity_threshold]; the areas, the equivalent-circle diameters
    [2 sqrt(area / pi)] and the count are those of the contours kept. *)
Theorem analyze_contours_filter self contours :
  let kept := List.filter (accepted self) contours in
  let data := _analyze_contours self contours in
  bd_areas data = map contourArea kept
  /\ bd_diameters data
     = map (fun cnt => 2 * sqrt (contourArea cnt / PI)) kept
  /\ bd_count data = Z.of_nat (length kept)
  /\ (length kept <= length contours)%nat
  /\ bd_mask data = None
  /\ (forall cnt,
        accepted self cnt = true
        <-> min_bubble_area self <= contourArea cnt
            /\ 0 < arcLength cnt
            /\ circularity_threshold self
               <= 4 * PI * contourArea cnt / (arcLength cnt * arcLength cnt)).
Proof.
  intros kept data. subst kept data. unfold _analyze_contours.
  rewrite analyze_loop_filter. cbn.
  rewrite length_map.
  split; [reflexivity|]. split; [reflexivity|]. split; [reflexivity|].
  split; [apply List.filter_length_le|]. split; [reflexivity|].
  intros cnt. apply accepted_spec.
Qed.

Lemma np_sum_pos xs : Forall (fun x => 0 < x) xs -> xs <> [] -> 0 < np_sum xs.
Proof.
  intros H. induction H as [|x xs Hx _ IH]; [congruence|]. intros _.
  change (0 < x + np_sum xs). destruct xs as [|y ys].
  - change (0 < x + 0). lra.
  - assert (0 < np_sum (y :: ys)) by (apply IH; discriminate). lra.
Qed.

Lemma np_mean_pos xs : Forall (fun x => 0 < x) xs -> xs <> [] -> 0 < np_mean xs.
Proof.
  intros H Hne. unfold np_mean. apply Rdiv_lt_0_compat.
  - apply np_sum_pos; assumption.
  - apply lt_0_INR. destruct xs; [congruence|cbn; lia].
Qed.

(** X15: with a positive [min_bubble_area], every accepted area is at
    least that minimum and every diameter is positive, so the average
    diameter is positive exactly when a bubble was accepted, and 0 when none
    was. *)
Theorem accepted_bubbles_positive self contours :
  0 < min_bubble_area self ->
  let data := _analyze_contours self contours in
  Forall (fun a => min_bubble_area self <= a) (bd_areas data)
  /\ Forall (fun d => 0 < d) (bd_diameters data)
  /\ (0 < bd_avg_diameter data <-> (0 < bd_count data)%Z)
  /\ (bd_count data = 0%Z -> bd_avg_diameter data = 0).
Proof.
  intros Hmin data. subst data. unfold _analyze_contours.
  rewrite analyze_loop_filter. cbn [app].
  set (kept := List.filter (accepted self) contours).
  assert (Hkept : Forall (fun cnt => min_bubble_area self <= contourArea cnt) kept).
  { apply Forall_forall. intros cnt Hin. subst kept.
    apply list_elem_of_In, List.filter_In in Hin as [_ Hacc].
    apply accepted_spec in Hacc. tauto. }
  assert (Hdiam : Forall (fun d => 0 < d)
            (map (fun cnt => equivalent_diameter (contourArea cnt)) kept)).
  { apply Forall_map. eapply Forall_impl; [exact Hkept|].
    intros cnt Hc. cbn. unfold equivalent_diameter.
    assert (0 < sqrt (contourArea cnt / PI)); [|lra].
    apply sqrt_lt_R0, Rdiv_lt_0_compat; [lra|apply PI_RGT_0]. }
  cbn. split; [apply Forall_map; exact Hkept|]. split; [exact Hdiam|].
  destruct kept as [|cnt kept'] eqn:Hk; cbn [map is_nonempty length].
  - split; [split; [lra|lia]|reflexivity].
  - split; [|intros H; lia]. split; [intros _; lia|intros _].
    apply np_mean_pos; [exact Hdiam|discriminate].
Qed.

Section WithOpenCV.

Variable cv_segment : VisionProcessor -> ndarray -> outcome (list contour * ndarray).

(** X16: on a frame that is not empty, [process_bubbles] never raises and
    never touches the processor: when OpenCV raises it returns the empty
    result, and otherwise the bubbles of [_analyze_contours] together with
    the mask. *)
Theorem process_bubbles_outcomes frame self :
  nd_size frame <> 0%nat ->
  match cv_segment self frame with
  | Raise _ =>
      process_bubbles cv_segment (Some frame) self
      = (Return empty_bubble_data, self)
  | Return (contours, mask) =>
      exists data,
        process_bubbles cv_segment (Some frame) self = (Return data, self)
        /\ bd_mask data = Some mask
        /\ bd_count data
           = Z.of_nat (length (List.filter (accepted self) contours))
        /\ bd_areas data = bd_areas (_analyze_contours self contours)
        /\ bd_diameters data = bd_diameters (_analyze_contours self contours)
        /\ bd_avg_diameter data
           = bd_avg_diameter (_analyze_contours self contours)
  end.
Proof.
  intros Hsize. unfold process_bubbles.
  apply Nat.eqb_neq in Hsize. rewrite Hsize.
  unfold try_except, bind, get.
  destruct (cv_segment self frame) as [[contours mask]|e]; [|reflexivity].
  eexists. split; [reflexivity|]. cbn.
  split; [reflexivity|]. split; [|repeat split].
  unfold _analyze_contours. rewrite analyze_loop_filter. cbn.
  rewrite length_map. reflexivity.
Qed.

End WithOpenCV.

Lemma deque_append_length {A} n (x : A) d :
  length (deque_append n x d) = Nat.min n (S (length d)).
Proof.
  unfold deque_append. rewrite length_drop, length_app. cbn. lia.
Qed.

Lemma analyze_froth_history frame data self :
  snd (analyze_froth frame data self) = self
  \/ exists avg,
      snd (analyze_froth frame data self)
      = append_history (bd_count data) avg self.
Proof.
  destruct (analyze_froth_cases frame data self) as [-> | (m & -> & _)].
  - left. reflexivity.
  - right. eexists. reflexivity.
Qed.

(** X17: whatever frames are analysed after construction, the two
    histories have the same length, never hold more than [history_size]
    entries nor more than one entry per analysed frame, and [history_size]
    itself does not change. *)
Theorem histories_bounded min_area circularity size inputs :
  let self := analyze_all inputs (Vision.__init__ min_area circularity size) in
  history_size self = size
  /\ length (bubble_count_history self) = length (avg_size_history self)
  /\ (length (bubble_count_history self) <= size)%nat
  /\ (length (bubble_count_history self) <= length inputs)%nat.
Proof.
  intros self. subst self.
  assert (Hgen : forall s0 : VisionProcessor,
    history_size s0 = size ->
    length (bubble_count_history s0) = length (avg_size_history s0) ->
    (length (bubble_count_history s0) <= size)%nat ->
    let s := analyze_all inputs s0 in
    history_size s = size
    /\ length (bubble_count_history s) = length (avg_size_history s)
    /\ (length (bubble_count_history s) <= size)%nat
    /\ (length (bubble_count_history s)
        <= length (bubble_count_history s0) + length inputs)%nat).
  { induction inputs as [|[frame data] inputs IH]; intros s0 Hs Heq Hle.
    - cbn. repeat split; try assumption. lia.
    - cbn [analyze_all fold_left fst snd].
      fold (analyze_all inputs (snd (analyze_froth frame data s0))).
      destruct (analyze_froth_history frame data s0) as [-> | (avg & ->)].
      + destruct (IH s0 Hs Heq Hle) as (H1 & H2 & H3 & H4).
        cbn in *. repeat split; try assumption. cbn. lia.
      + destruct (IH (append_history (bd_count data) avg s0))
          as (H1 & H2 & H3 & H4).
        * exact Hs.
        * cbn. rewrite !deque_append_length, Hs, Heq. reflexivity.
        * cbn. rewrite deque_append_length. lia.
        * cbn in *. repeat split; try assumption.
          rewrite deque_append_length in H4. cbn. lia. }
  destruct (Hgen (Vision.__init__ min_area circularity size))
    as (H1 & H2 & H3 & H4); try reflexivity; [cbn; lia|].
  cbn in H4. repeat split; assumption.
Qed.


Lemma count_nonzero_le mask : (count_nonzero mask <= length (nd_data mask))%nat.
Proof. unfold count_nonzero. apply length_filter. Qed.

Lemma fraction_in_unit (c t : nat) :
  (c <= t)%nat -> (0 < t)%nat -> 0 <= INR c / INR t <= 1.
Proof.
  intros Hle Hpos. apply le_INR in Hle. apply lt_0_INR in Hpos.
  pose proof (pos_INR c) as Hc. split.
  - apply Rmult_le_pos; [exact Hc|]. left. apply Rinv_0_lt_compat, Hpos.
  - apply (Rmult_le_reg_r (INR t)); [exact Hpos|].
    unfold Rdiv. rewrite Rmult_assoc, Rinv_l by lra. lra.
Qed.

(** X19: with a mask that has one entry per pixel of the frame, the
    coverage [analyze_froth] reports is the fraction of mask entries that are
    not 0 and lies in [0, 1] (0 for a frame without pixels); without a mask
    the coverage is 0. *)
Theorem froth_coverage_range :
  (forall f data self rows cols rest mask,
      nd_shape f = rows :: cols :: rest ->
      bd_mask data = Some mask ->
      length (nd_data mask) = (rows * cols)%nat ->
      exists m self',
        analyze_froth (Some f) data self = (Return m, self')
        /\ froth_coverage m
           = (if Nat.ltb 0 (rows * cols)
              then INR (count_nonzero mask) / INR (rows * cols) else 0)
        /\ 0 <= froth_coverage m <= 1)
  /\ (forall frame data self,
         bd_mask data = None ->
         exists m self',
           analyze_froth frame data self = (Return m, self')
           /\ froth_coverage m = 0).
Proof.
  split.
  - intros f data self rows cols rest mask Hshape Hmask Hlen.
    unfold analyze_froth, try_except, bind, get, modify, index, ret, raise.
    rewrite Hmask, Hshape. cbn.
    eexists _, _. split; [reflexivity|]. cbn [froth_coverage].
    split; [reflexivity|].
    pose proof (count_nonzero_le mask) as Hnz. rewrite Hlen in Hnz.
    destruct (rows * cols)%nat as [|n] eqn:E; [lra|].
    apply fraction_in_unit; [exact Hnz|lia].
  - intros frame data self Hmask.
    unfold analyze_froth, try_except, bind, get, modify, index, ret, raise.
    rewrite Hmask. cbn. eexists _, _. split; reflexivity.
Qed.





(** X21: the density score is [count / 50] below 50, 1 from 50 to 200,
    [1 - (count - 200) / 200] from 201 to 300 and 0.5 from 300 on; it lies in
    [0, 1] for a count that is not negative, and it is 1 only from 50 to
    200. *)
Theorem density_score_piecewise (count : Z) :
  ((count < 50)%Z -> density_score count = IZR count / 50)
  /\ ((50 <= count <= 200)%Z -> density_score count = 1)
  /\ ((200 < count <= 300)%Z ->
      density_score count = 1 - (IZR count - 200) / 200)
  /\ ((300 <= count)%Z -> density_score count = 0.5)
  /\ ((0 <= count)%Z -> 0 <= density_score count <= 1)
  /\ (density_score count = 1 <-> (50 <= count <= 200)%Z).
Proof.
  unfold density_score.
  destruct (Z.ltb_spec count 50) as [Hlt|Hge].
  - apply IZR_lt in Hlt as Hlt'.
    split; [intros _; reflexivity|]. split; [lia|]. split; [lia|].
    split; [lia|]. split; [intros H0; apply IZR_le in H0; lra|].
    split; [intros H1; lra|lia].
  - apply IZR_le in Hge as Hge'.
    destruct (Z.gtb_spec count 200) as [Hgt|Hle].
    + apply IZR_lt in Hgt as Hgt'. unfold py_max, Rltb.
      split; [lia|]. split; [lia|].
      split; [intros [_ H3]; apply IZR_le in H3; case_bool_decide; lra|].
      split; [intros H3; apply IZR_le in H3; case_bool_decide; lra|].
      split; [intros _; case_bool_decide; lra|].
      split; [case_bool_decide; intros H1; lra|lia].
    + split; [lia|]. split; [intros _; reflexivity|]. split; [lia|].
      split; [lia|]. split; [intros _; lra|].
      split; [intros _; lia|intros _; reflexivity].
Qed.


(** X22: [analyze_froth] swallows a fault: with a mask but no frame, or a
    frame of fewer than two dimensions, it returns the zeroed metrics and
    leaves the histories alone. Otherwise it returns the count, the mean
    area and the spread of the diameters, and appends the count and the mean
    area to the histories. *)
Theorem analyze_froth_fault frame data self :
  (bd_mask data <> None ->
   frame = None
   \/ (exists f, frame = Some f /\ (length (nd_shape f) < 2)%nat) ->
   analyze_froth frame data self = (Return zero_metrics, self))
  /\ (bd_mask data = None
      \/ (exists f, frame = Some f /\ (2 <= length (nd_shape f))%nat) ->
      exists m,
        analyze_froth frame data self
        = (Return m,
           append_history (bd_count data)
             (if is_nonempty (bd_areas data)
              then np_mean (bd_areas data) else 0) self)
        /\ bubble_count m = bd_count data
        /\ avg_bubble_size m
           = (if is_nonempty (bd_areas data)
              then np_mean (bd_areas data) else 0)
        /\ size_std_dev m
           = (if is_nonempty (bd_diameters data)
              then np_std (bd_diameters data) else 0)).
Proof.
  unfold analyze_froth, try_except, bind, get, modify, index, ret, raise.
  split.
  - intros Hmask Hframe. destruct (bd_mask data) as [mask|]; [|congruence].
    destruct Hframe as [-> | (f & -> & Hlen)]; [reflexivity|].
    destruct (nd_shape f) as [|rows [|cols rest]]; cbn in *;
      [reflexivity|reflexivity|lia].
  - intros Hok. destruct (bd_mask data) as [mask|].
    + destruct Hok as [Hnone | (f & -> & Hlen)]; [discriminate|].
      destruct (nd_shape f) as [|rows [|cols rest]]; cbn in Hlen; try lia.
      cbn. eexists. split; [reflexivity|]. repeat split.
    + cbn. eexists. split; [reflexivity|]. repeat split.
Qed.

Section GetMetrics.

Variable cv_segment : VisionProcessor -> ndarray -> outcome (list contour * ndarray).


End GetMetrics.

(** *** The theorems at concrete inputs *)

Lemma accepted_bubbles_positive_witness :
  0 < min_bubble_area default_processor
  /\ (0 < bd_avg_diameter (_analyze_contours default_processor two_circles)
      <-> (0 < bd_count (_analyze_contours default_processor two_circles))%Z).
Proof.
  assert (H : 0 < min_bubble_area default_processor) by (cbn; lra).
  split; [exact H|].
  apply (accepted_bubbles_positive default_processor two_circles H).
Defined.

Lemma process_bubbles_outcomes_witness :
  nd_size small_frame <> 0%nat
  /\ process_bubbles cv_failing (Some small_frame) default_processor
     = (Return empty_bubble_data, default_processor).
Proof.
  assert (H : nd_size small_frame <> 0%nat) by (cbn; lia).
  split; [exact H|].
  apply (process_bubbles_outcomes cv_failing small_frame default_processor H).
Defined.


Lemma froth_coverage_range_witness :
  length (nd_data small_mask) = (2 * 3)%nat
  /\ exists m self',
      analyze_froth (Some small_frame) masked_data default_processor
      = (Return m, self')
      /\ 0 <= froth_coverage m <= 1.
Proof.
  split; [reflexivity|].
  destruct froth_coverage_range as [Hcov _].
  destruct (Hcov small_frame masked_data default_processor
              2%nat 3%nat [3%nat] small_mask)
    as (m & self' & H1 & _ & H3); try reflexivity.
  exists m, self'. split; assumption.
Defined.


Lemma density_score_piecewise_witness :
  density_score 0 = 0 /\ density_score 50 = 1 /\ density_score 125 = 1
  /\ density_score 200 = 1 /\ density_score 300 = 0.5.
Proof.
  destruct (density_score_piecewise 0) as (H0 & _).
  destruct (density_score_piecewise 50) as (_ & H50 & _).
  destruct (density_score_piecewise 125) as (_ & H125 & _).
  destruct (density_score_piecewise 200) as (_ & H200 & _).
  destruct (density_score_piecewise 300) as (_ & _ & _ & H300 & _).
  split; [rewrite H0 by lia; lra|]. split; [apply H50; lia|].
  split; [apply H125; lia|]. split; [apply H200; lia|apply H300; lia].
Defined.

Lemma analyze_froth_fault_witness :
  bd_mask masked_data <> None
  /\ analyze_froth None masked_data default_processor
     = (Return zero_metrics, default_processor).
Proof.
  assert (H : bd_mask masked_data <> None) by discriminate.
  split; [exact H|].
  destruct (analyze_froth_fault None masked_data default_processor)
    as [Hfault _].
  apply Hfault; [exact H|left; reflexivity].
Defined.


End VisionMore.

(** ** The camera *)

Module CameraFacts.
Import Camera.

Section WithDevice.

Variable device : nat -> attempt.

Lemma attempt_once_eq s :
  attempt_once device s
  = match device (constructed s) with
    | Opens =>
        (Return (Some true),
         set_is_camera_open true
           (set_cap (Some {| isOpened := true |}) (count_construction s)))
    | ConstructorRaises =>
        (Return None,
         sleep 2
           (set_cap (match cap s with Some _ => closed | None => None end)
              (count_construction s)))
    | _ =>
        (Return None, sleep 2 (set_cap closed (count_construction s)))
    end.
Proof.
  unfold attempt_once, release_cap, try_except, bind, get, modify, raise, ret.
  destruct (device (constructed s)); cbn; try reflexivity.
  destruct s as [retries [c|] open made secs]; reflexivity.
Qed.

Lemma retry_loop_fails passes s :
  (forall j, (j < passes)%nat -> device (constructed s + j) <> Opens) ->
  exists s',
    retry_loop device passes s = (Return false, s')
    /\ camera_retries s' = camera_retries s
    /\ is_camera_open s' = is_camera_open s
    /\ constructed s' = (constructed s + passes)%nat
    /\ slept s' = (slept s + 2 * passes)%nat
    /\ (cap s <> Some {| isOpened := true |} \/ (0 < passes)%nat ->
        cap s' <> Some {| isOpened := true |}).
Proof.
  revert s. induction passes as [|passes IH]; intros s Hnone.
  - exists s. cbn. repeat split; try lia. intros [H|H]; [exact H|lia].
  - cbn [retry_loop]. unfold bind. rewrite attempt_once_eq.
    pose proof (Hnone 0%nat ltac:(lia)) as H0. rewrite Nat.add_0_r in H0.
    assert (Hrest : forall s1 : camera,
      constructed s1 = S (constructed s) ->
      forall j, (j < passes)%nat -> device (constructed s1 + j) <> Opens).
    { intros s1 -> j Hj. replace (S (constructed s) + j)%nat
        with (constructed s + S j)%nat by lia. apply Hnone. lia. }
    destruct (device (constructed s)) eqn:Hd; try congruence;
      match goal with |- context [retry_loop device passes ?s1] =>
        destruct (IH s1 (Hrest s1 eq_refl)) as (s' & -> & H1 & H2 & H3 & H4 & H5)
      end; exists s'; cbn in *;
      (split; [reflexivity|]); (split; [exact H1|]); (split; [exact H2|]);
      (split; [lia|]); (split; [lia|]); intros _; apply H5; left;
      unfold closed; try discriminate.
    destruct (cap s); unfold closed; discriminate.
Qed.

Lemma retry_loop_opens passes k s :
  (k < passes)%nat ->
  device (constructed s + k) = Opens ->
  (forall j, (j < k)%nat -> device (constructed s + j) <> Opens) ->
  exists s',
    retry_loop device passes s = (Return true, s')
    /\ camera_retries s' = camera_retries s
    /\ is_camera_open s' = true
    /\ cap s' = Some {| isOpened := true |}
    /\ constructed s' = (constructed s + k + 1)%nat
    /\ slept s' = (slept s + 2 * k)%nat.
Proof.
  revert passes s. induction k as [|k IH]; intros passes s Hk Hopen Hnone.
  - destruct passes as [|passes]; [lia|].
    cbn [retry_loop]. unfold bind. rewrite attempt_once_eq.
    rewrite Nat.add_0_r in Hopen. rewrite Hopen.
    eexists. split; [reflexivity|]. cbn. repeat split; lia.
  - destruct passes as [|passes]; [lia|].
    cbn [retry_loop]. unfold bind. rewrite attempt_once_eq.
    pose proof (Hnone 0%nat ltac:(lia)) as H0. rewrite Nat.add_0_r in H0.
    assert (Hstep : forall s1 : camera,
      constructed s1 = S (constructed s) ->
      device (constructed s1 + k) = Opens
      /\ forall j, (j < k)%nat -> device (constructed s1 + j) <> Opens).
    { intros s1 ->. split.
      - replace (S (constructed s) + k)%nat
          with (constructed s + S k)%nat by lia. exact Hopen.
      - intros j Hj. replace (S (constructed s) + j)%nat
          with (constructed s + S j)%nat by lia. apply Hnone. lia. }
    destruct (device (constructed s)) eqn:Hd; try congruence;
      match goal with |- context [retry_loop device passes ?s1] =>
        destruct (Hstep s1 eq_refl) as [Ho Hn];
        destruct (IH passes s1 ltac:(lia) Ho Hn)
          as (s' & -> & H1 & H2 & H3 & H4 & H5)
      end; exists s'; cbn in *;
      (split; [reflexivity|]); (split; [exact H1|]); (split; [exact H2|]);
      (split; [exact H3|]); split; lia.
Qed.

Lemma retry_loop_returns passes s :
  exists b s',
    retry_loop device passes s = (Return b, s')
    /\ (b = true ->
        is_camera_open s' = true /\ cap s' = Some {| isOpened := true |}).
Proof.
  revert s. induction passes as [|passes IH]; intros s.
  - exists false, s. split; [reflexivity|discriminate].
  - cbn [retry_loop]. unfold bind. rewrite attempt_once_eq.
    destruct (device (constructed s));
      try (match goal with |- context [retry_loop device passes ?s1] =>
             destruct (IH s1) as (b & s' & -> & Hb) end;
           exists b, s'; split; [reflexivity|exact Hb]).
    eexists true, _. split; [reflexivity|]. intros _. split; reflexivity.
Qed.

(** X24: [initialize_camera] retries at most [camera_retries] times. If
    the first capture that opens and reads a frame is the [k]-th of those
    passes, it returns [True] after [k + 1] constructions and [2 k] seconds
    of sleep, with the camera marked open. If none does, it returns [False]
    after [camera_retries] constructions and 2 seconds of sleep for each,
    leaves [is_camera_open] as it was and holds no open capture. *)
Theorem initialize_camera_retries s :
  (forall k,
      (k < camera_retries s)%nat ->
      device (constructed s + k) = Opens ->
      (forall j, (j < k)%nat -> device (constructed s + j) <> Opens) ->
      exists s',
        initialize_camera device s = (Return true, s')
        /\ is_camera_open s' = true
        /\ cap s' = Some {| isOpened := true |}
        /\ constructed s' = (constructed s + k + 1)%nat
        /\ slept s' = (slept s + 2 * k)%nat)
  /\ ((forall j, (j < camera_retries s)%nat ->
                 device (constructed s + j) <> Opens) ->
      exists s',
        initialize_camera device s = (Return false, s')
        /\ is_camera_open s' = is_camera_open s
        /\ constructed s' = (constructed s + camera_retries s)%nat
        /\ slept s' = (slept s + 2 * camera_retries s)%nat
        /\ ((0 < camera_retries s)%nat ->
            cap s' <> Some {| isOpened := true |})).
Proof.
  unfold initialize_camera, bind, get. split.
  - intros k Hk Hopen Hnone.
    destruct (retry_loop_opens (camera_retries s) k s Hk Hopen Hnone)
      as (s' & -> & _ & H2 & H3 & H4 & H5).
    exists s'. repeat split; assumption.
  - intros Hnone.
    destruct (retry_loop_fails (camera_retries s) s Hnone)
      as (s' & -> & _ & H2 & H3 & H4 & H5).
    exists s'. repeat split; try assumption. intros Hpos. apply H5. right.
    exact Hpos.
Qed.

(** X25: with the camera open, [capture_frame] passes a frame through and
    leaves the object alone; any other read (no frame, or an exception)
    gives [(False, None)] and marks the camera closed, so the next call
    initialises again. With the camera closed and no capture opening, it
    gives [(False, None)] after [camera_retries] constructions. It never
    raises, and a [True] answer always carries the frame that was read, with
    the camera marked open. *)
Theorem capture_frame_outcomes read s :
  (is_camera_open s = true -> cap s <> None ->
   capture_frame device read s
   = match read with
     | Return (true, Some frame) => (Return (true, Some frame), s)
     | _ => (Return (false, None), set_is_camera_open false s)
     end)
  /\ (is_camera_open s = false \/ cap s = None ->
      (forall j, (j < camera_retries s)%nat ->
                 device (constructed s + j) <> Opens) ->
      exists s',
        capture_frame device read s = (Return (false, None), s')
        /\ is_camera_open s' = is_camera_open s
        /\ constructed s' = (constructed s + camera_retries s)%nat)
  /\ (exists r s',
        capture_frame device read s = (Return r, s')
        /\ (fst r = true ->
            is_camera_open s' = true
            /\ exists frame,
                r = (true, Some frame) /\ read = Return (true, Some frame))).
Proof.
  assert (Hread : forall s1 : camera,
    is_camera_open s1 = true ->
    exists r s',
      try_except
        (bind (fun s0 : camera => (read, s0))
           (fun rf : bool * option Vision.ndarray =>
              match rf with
              | (true, Some frame) => ret (true, Some frame)
              | _ => bind (modify (set_is_camera_open false))
                       (fun _ => ret (false, None))
              end))
        (fun _ => bind (modify (set_is_camera_open false))
                    (fun _ => ret (false, None))) s1
      = (Return r, s')
      /\ (fst r = true ->
          is_camera_open s' = true
          /\ exists frame,
              r = (true, Some frame) /\ read = Return (true, Some frame))).
  { intros s1 Hopen. unfold try_except, bind, modify, ret.
    destruct read as [[[] [frame|]]|e]; eexists _, _;
      (split; [reflexivity|]); cbn; try discriminate.
    intros _. split; [exact Hopen|]. exists frame. split; reflexivity. }
  split; [|split].
  - intros Hopen Hcap. unfold capture_frame, bind, get. rewrite Hopen.
    destruct (cap s); [|congruence]. cbn.
    unfold try_except, bind, modify, ret.
    destruct read as [[[] [frame|]]|e]; reflexivity.
  - intros Hclosed Hnone. unfold capture_frame, bind, get.
    assert (Hcond : negb (is_camera_open s)
                    || match cap s with None => true | Some _ => false end
                    = true).
    { destruct Hclosed as [-> | ->]; [reflexivity|apply orb_true_r]. }
    rewrite Hcond. unfold initialize_camera, bind, get.
    destruct (retry_loop_fails (camera_retries s) s Hnone)
      as (s' & -> & _ & H1 & H2 & _).
    exists s'. repeat split; assumption.
  - unfold capture_frame, bind, get.
    destruct (negb (is_camera_open s)
              || match cap s with None => true | Some _ => false end) eqn:Hc.
    + unfold initialize_camera, bind, get.
      destruct (retry_loop_returns (camera_retries s) s) as (b & s1 & -> & Hb).
      destruct b; cbn [negb].
      * apply Hread. apply Hb. reflexivity.
      * eexists _, _. split; [reflexivity|]. cbn. discriminate.
    + cbn [negb]. apply Hread.
      apply orb_false_iff in Hc as [Hc _]. apply negb_false_iff in Hc.
      exact Hc.
Qed.

(** X26: [release] drops the capture and marks the camera closed; a
    second [release] changes nothing; and the next [capture_frame] opens the
    device again with one more construction. *)
Theorem release_then_capture s :
  let s1 := snd (release s) in
  release s = (Return tt, s1)
  /\ cap s1 = None /\ is_camera_open s1 = false
  /\ constructed s1 = constructed s /\ slept s1 = slept s
  /\ release s1 = (Return tt, s1)
  /\ (forall frame,
        (0 < camera_retries s)%nat -> device (constructed s) = Opens ->
        exists s2,
          capture_frame device (Return (true, Some frame)) s1
          = (Return (true, Some frame), s2)
          /\ is_camera_open s2 = true
          /\ constructed s2 = S (constructed s)).
Proof.
  intros s1. subst s1.
  assert (Hrel : exists s1,
             release s = (Return tt, s1)
             /\ s1 = set_is_camera_open false (set_cap None s)).
  { unfold release, release_cap, bind, get, modify, ret.
    destruct s as [retries [c|] open made secs]; eexists; split; reflexivity. }
  destruct Hrel as (s1 & -> & ->). cbn [snd].
  repeat (split; [reflexivity|]).
  intros frame Hpos Hopen.
  destruct (retry_loop_opens (camera_retries s) 0
              (set_is_camera_open false (set_cap None s)))
    as (s2 & Heq & _ & H1 & H2 & H3 & H4).
  - exact Hpos.
  - cbn. rewrite Nat.add_0_r. exact Hopen.
  - intros j Hj. lia.
  - unfold capture_frame, initialize_camera, bind, get.
    set (loop := retry_loop device) in *. clearbody loop.
    cbn. rewrite Heq. cbn. unfold try_except, bind, ret.
    exists s2. split; [reflexivity|]. split; [exact H1|].
    cbn in H3. lia.
Qed.

End WithDevice.

(** *** The theorems at concrete cameras *)

Lemma initialize_camera_retries_witness :
  (2 < camera_retries fresh_camera)%nat
  /\ third_time_lucky (constructed fresh_camera + 2) = Opens
  /\ (exists s',
        initialize_camera third_time_lucky fresh_camera = (Return true, s')
        /\ constructed s' = 3%nat /\ slept s' = 4%nat)
  /\ (exists s',
        initialize_camera unplugged fresh_camera = (Return false, s')
        /\ constructed s' = 5%nat /\ slept s' = 10%nat).
Proof.
  assert (H2 : (2 < camera_retries fresh_camera)%nat) by (cbn; lia).
  assert (Ho : third_time_lucky (constructed fresh_camera + 2) = Opens)
    by reflexivity.
  split; [exact H2|]. split; [exact Ho|]. split.
  - destruct (initialize_camera_retries third_time_lucky fresh_camera)
      as [Hok _].
    destruct (Hok 2%nat H2 Ho) as (s' & H & _ & _ & Hc & Hs).
    + intros j Hj. destruct j as [|[|j]]; cbn; [discriminate|discriminate|lia].
    + exists s'. repeat split; assumption.
  - destruct (initialize_camera_retries unplugged fresh_camera)
      as [_ Hfail].
    destruct Hfail as (s' & H & _ & Hc & Hs & _).
    + intros j _. discriminate.
    + exists s'. repeat split; assumption.
Defined.

Lemma capture_frame_outcomes_witness :
  is_camera_open fresh_camera = false
  /\ exists s',
      capture_frame unplugged (Return (true, None)) fresh_camera
      = (Return (false, None), s')
      /\ constructed s' = 5%nat.
Proof.
  split; [reflexivity|].
  destruct (capture_frame_outcomes unplugged (Return (true, None)) fresh_camera)
    as (_ & Hclosed & _).
  destruct Hclosed as (s' & H & _ & Hc).
  - left. reflexivity.
  - intros j _. discriminate.
  - exists s'. split; assumption.
Defined.

Lemma release_then_capture_witness :
  (0 < camera_retries fresh_camera)%nat
  /\ plugged (constructed fresh_camera) = Opens
  /\ exists s2,
      capture_frame plugged (Return (true, Some Pipeline.small_frame))
        (snd (release fresh_camera))
      = (Return (true, Some Pipeline.small_frame), s2)
      /\ is_camera_open s2 = true.
Proof.
  assert (Hp : (0 < camera_retries fresh_camera)%nat) by (cbn; lia).
  split; [exact Hp|]. split; [reflexivity|].
  destruct (release_then_capture plugged fresh_camera)
    as (_ & _ & _ & _ & _ & _ & Hcap).
  destruct (Hcap Pipeline.small_frame Hp eq_refl) as (s2 & H1 & H2 & _).
  exists s2. split; assumption.
Defined.

End CameraFacts.
